(** * yab: response-envelope resolution and HTTP transport calls

    A shallow embedding of [thrift/response.go] (the Thrift result
    resolver) and of the call scenarios of [transport/http_test.go],
    together with the properties the specification states about them.

    Go values are modelled as follows:
    - [int], [int16], [time.Duration]: [Z] (the only arithmetic on a
      bounded integer is the 64-bit product in the TTL check of the test,
      whose wrap-around is written out);
    - [[]byte]: [list Byte.byte]; [string]: [string];
    - [map[string]T]: [gmap string T];
    - [(T, error)] results, and [panic]: the three-way [result] type;
    - [error]: the text its [Error()] method returns. *)

From Stdlib Require Import ZArith NArith String Ascii List Lia.
From Stdlib Require Import Decimal DecimalString DecimalN DecimalPos DecimalZ.
From stdpp Require Import base option list gmap strings.

Set Warnings "-register-all".

(** stdpp blocks [simpl] on string concatenation; the proofs below unfold
    it on string literals. *)
#[local] Arguments String.append !s1 s2 : simpl nomatch.

Local Open Scope Z_scope.

(** ** Go results *)

(** What a Go function of type [func(...) (A, error)] can do: return a
    value with a nil error, return a non-nil error, or panic. *)
Inductive result (A : Type) : Type :=
| Ok (a : A)
| Err (msg : string)
| Panic (msg : string).
Arguments Ok {A} a.
Arguments Err {A} msg.
Arguments Panic {A} msg.

Definition isErr {A} (r : result A) : bool :=
  match r with Err _ => true | _ => false end.

(** ** Package [strings] *)

Module gostrings.

(** [strings.HasPrefix s prefix]. *)
Fixpoint HasPrefix (s prefix : string) {struct prefix} : bool :=
  match prefix, s with
  | EmptyString, _ => true
  | String _ _, EmptyString => false
  | String a p, String b s' => if Ascii.eqb a b then HasPrefix s' p else false
  end.

(** [strings.Contains s substr]: [substr] occurs somewhere within [s]. *)
Fixpoint Contains (s substr : string) : bool :=
  HasPrefix s substr ||
  match s with
  | EmptyString => false
  | String _ s' => Contains s' substr
  end.

(** The relational reading of containment. *)
Definition Within (substr s : string) : Prop :=
  exists pre post, s = pre +:+ substr +:+ post.

End gostrings.

(** ** Package [strconv] *)

Module strconv.

(** Bounds of Go's [int] on the 64-bit platforms yab targets. *)
Definition minInt : Z := - 2 ^ 63.
Definition maxInt : Z := 2 ^ 63 - 1.

(** [strconv.Itoa]: base-10 text, with a leading [-] for negatives. This is
    also what [fmt]'s [%v] prints for an integer. *)
Definition Itoa (i : Z) : string := NilZero.string_of_int (Z.to_int i).

(** [strconv.Atoi]: an optional sign followed by at least one decimal
    digit and nothing else; a value outside [int] is an error. *)
Definition Atoi (s : string) : option Z :=
  match s with
  | EmptyString => None
  | String c rest =>
    let body := if Ascii.eqb c "-" || Ascii.eqb c "+" then rest else s in
    match NilZero.uint_of_string body with
    | None => None
    | Some d =>
      let n := Z.of_N (N.of_uint d) in
      let v := if Ascii.eqb c "-" then - n else n in
      if Z.leb minInt v && Z.leb v maxInt then Some v else None
    end
  end.

End strconv.

(** ** Package [wire] (thriftrw-go): the generic wire-value tree *)

Module wire.

(** [wire.Type]: the type tag of a wire value. *)
Inductive TypeCode : Set :=
| TBool | TI8 | TDouble | TI16 | TI32 | TI64
| TBinary | TStruct | TMap | TSet | TList.

Definition TypeCode_eqb (a b : TypeCode) : bool :=
  match a, b with
  | TBool, TBool | TI8, TI8 | TDouble, TDouble | TI16, TI16 | TI32, TI32
  | TI64, TI64 | TBinary, TBinary | TStruct, TStruct | TMap, TMap
  | TSet, TSet | TList, TList => true
  | _, _ => false
  end.

(** [wire.Value] and [wire.Field]. A struct value carries its fields in
    wire order; a field is an [int16] id and a value. *)
Inductive Value : Type :=
| VBool (b : bool)
| VI8 (n : Z)
| VDouble (bits : Z)
| VI16 (n : Z)
| VI32 (n : Z)
| VI64 (n : Z)
| VBinary (bs : list Byte.byte)
| VStruct (fields : list Field)
| VMap (k v : TypeCode) (items : list (Value * Value))
| VSet (e : TypeCode) (items : list Value)
| VList (e : TypeCode) (items : list Value)
with Field : Type :=
| mkField (id : Z) (v : Value).

Definition ID (f : Field) : Z := match f with mkField id _ => id end.
Definition FieldValue (f : Field) : Value := match f with mkField _ v => v end.

(** [wire.Struct]. *)
Record Struct : Type := mkStruct { Fields : list Field }.

(** [Value.Type()]. *)
Definition TypeOf (w : Value) : TypeCode :=
  match w with
  | VBool _ => TBool | VI8 _ => TI8 | VDouble _ => TDouble
  | VI16 _ => TI16 | VI32 _ => TI32 | VI64 _ => TI64
  | VBinary _ => TBinary | VStruct _ => TStruct
  | VMap _ _ _ => TMap | VSet _ _ => TSet | VList _ _ => TList
  end.

(** [Value.GetStruct()]: the struct payload (the zero struct for a value of
    another type). *)
Definition GetStruct (w : Value) : Struct :=
  match w with
  | VStruct fs => mkStruct fs
  | _ => mkStruct []
  end.

End wire.

(** ** Package [protocol] (thriftrw-go): the binary codec *)

Module protocol.

(** [protocol.Protocol]: the codec interface. [Decode r t] reads a value
    of type [t]; an error is modelled by its text. *)
Class Protocol : Type := {
  Decode : list Byte.byte -> wire.TypeCode -> wire.Value + string
}.

(** The contract the codec documents for [Decode], at the entry point the
    resolver uses: a value returned for a requested struct carries the
    struct tag. *)
Definition honoursContract (P : Protocol) : Prop :=
  forall bs w, Decode bs wire.TStruct = inl w -> wire.TypeOf w = wire.TStruct.

End protocol.

(** ** Package [compile] (thriftrw-go): per-method metadata *)

Module compile.

(** [compile.TypeSpec] is an interface; the resolver only calls its
    [ThriftName] method and hands it to [valueFromWire]. *)
Class TypeSpecs : Type := {
  TypeSpec : Type;
  ThriftName : TypeSpec -> string
}.

Section Specs.
Context {TS : TypeSpecs}.

(** [compile.FieldSpec]: one declared exception (an [int16] id, a name and
    a type). *)
Record FieldSpec : Type := mkFieldSpec {
  ID : Z;
  Name : string;
  FieldType : TypeSpec
}.

(** [FieldSpec.ThriftName()] is the field's name. *)
Definition FieldThriftName (f : FieldSpec) : string := Name f.

(** [compile.ResultSpec]: [ReturnType] is nil for a void method. *)
Record ResultSpecRec : Type := mkResultSpec {
  ReturnType : option TypeSpec;
  Exceptions : list FieldSpec
}.

(** [compile.FunctionSpec]: the [ResultSpec] pointer may be nil. *)
Record FunctionSpec : Type := mkFunctionSpec {
  ResultSpec : option ResultSpecRec
}.

End Specs.

End compile.

(** ** Package [thrift]: [response.go] *)

Module thrift.

Section Response.

Context {TS : compile.TypeSpecs}.

(** [protocol.Binary], the codec instance the resolver decodes with. *)
Context {Binary : protocol.Protocol}.

(** The native values ([interface{}]) that [valueFromWire] produces. *)
Context {Native : Type}.

(** [valueFromWire(spec, w)], the type-directed decoder of package
    [thrift]; its source file is not part of this development, so it is a
    parameter. *)
Variable valueFromWire : compile.TypeSpec -> wire.Value -> Native + string.

(** What [fmt] prints for a [wire.Value] under [%v] and for a
    [[]wire.Field] under [%+v] (their [String] methods live in thriftrw). *)
Variable fmtValue : wire.Value -> string.
Variable fmtFields : list wire.Field -> string.

(** Modelled from the spec: [getFieldMap], whose source file is missing,
    builds "an id->exception-descriptor lookup from [meta]'s declared
    exceptions (empty if metadata declares none)". *)
Definition getFieldMap (fields : list compile.FieldSpec) : gmap Z compile.FieldSpec :=
  foldl (fun m f => <[compile.ID f := f]> m) ∅ fields.

(** [spec.ResultSpec == nil || spec.ResultSpec.ReturnType == nil] fails
    exactly when this is [Some rt]. *)
Definition returnTypeOf (spec : compile.FunctionSpec) : option compile.TypeSpec :=
  match compile.ResultSpec spec with
  | None => None
  | Some rs => compile.ReturnType rs
  end.

Definition responseBytesToWire (responseBytes : list Byte.byte) : result wire.Struct :=
  match protocol.Decode responseBytes wire.TStruct with
  | inr err => Err ("cannot parse Thrift struct from response: " +:+ err)
  | inl w =>
    if negb (wire.TypeCode_eqb (wire.TypeOf w) wire.TStruct)
    then Panic "Got unexpected type when parsing struct"
    else Ok (wire.GetStruct w)
  end.

(** The body of the [for _, f := range w.Fields] loop of
    [ResponseBytesToMap], with the map built so far as accumulator. *)
Fixpoint rangeFields (spec : compile.FunctionSpec)
    (specs : gmap Z compile.FieldSpec) (fields : list wire.Field)
    (res : gmap string Native) : result (gmap string Native) :=
  match fields with
  | [] => Ok res
  | f :: rest =>
    if wire.ID f =? 0 then
      match returnTypeOf spec with
      | None =>
        Err ("got unexpected result for void method: " +:+ fmtValue (wire.FieldValue f))
      | Some rt =>
        match valueFromWire rt (wire.FieldValue f) with
        | inr err =>
          Err ("failed to parse result field " +:+ strconv.Itoa (wire.ID f) +:+ ": " +:+ err)
        | inl v => rangeFields spec specs rest (<["result" := v]> res)
        end
      end
    else
      match specs !! wire.ID f with
      | None =>
        Err ("got unknown exception with ID " +:+ strconv.Itoa (wire.ID f) +:+ ": "
             +:+ fmtValue (wire.FieldValue f))
      | Some exSpec =>
        match valueFromWire (compile.FieldType exSpec) (wire.FieldValue f) with
        | inr err =>
          Err ("failed to parse result field " +:+ strconv.Itoa (wire.ID f) +:+ ": " +:+ err)
        | inl v => rangeFields spec specs rest (<[compile.Name exSpec := v]> res)
        end
      end
  end.

Definition ResponseBytesToMap (spec : compile.FunctionSpec)
    (responseBytes : list Byte.byte) : result (gmap string Native) :=
  match responseBytesToWire responseBytes with
  | Err err => Err err
  | Panic msg => Panic msg
  | Ok w =>
    let specs :=
      match compile.ResultSpec spec with
      | Some rs => getFieldMap (compile.Exceptions rs)
      | None => ∅
      end in
    rangeFields spec specs (wire.Fields w) ∅
  end.

(** The [for _, ex := range spec.ResultSpec.Exceptions] loop of
    [checkException]: the first declared exception with the id wins. *)
Fixpoint rangeExceptions (exs : list compile.FieldSpec) (fieldID : Z) : string :=
  match exs with
  | [] => "unknown"
  | ex :: rest =>
    if compile.ID ex =? fieldID
    then compile.FieldThriftName ex +:+ " " +:+ compile.ThriftName (compile.FieldType ex)
    else rangeExceptions rest fieldID
  end.

Definition checkException (spec : compile.FunctionSpec) (fieldID : Z) : string :=
  match compile.ResultSpec spec with
  | None => "unknown, method has no exceptions"
  | Some rs =>
    if Nat.eqb (length (compile.Exceptions rs)) 0
    then "unknown, method has no exceptions"
    else rangeExceptions (compile.Exceptions rs) fieldID
  end.

(** [w.Fields[0]]: indexing an empty slice panics. *)
Definition firstField (fields : list wire.Field) : result wire.Field :=
  match fields !! 0%nat with
  | Some f => Ok f
  | None => Panic "index out of range"
  end.

(** [CheckSuccess] returns an [error]; [Ok tt] is the nil error. *)
Definition CheckSuccess (spec : compile.FunctionSpec)
    (responseBytes : list Byte.byte) : result unit :=
  match responseBytesToWire responseBytes with
  | Err err => Err ("could not deserialize result: " +:+ err)
  | Panic msg => Panic msg
  | Ok w =>
    match returnTypeOf spec with
    | None =>
      if Nat.eqb (length (wire.Fields w)) 0 then Ok tt
      else
        match firstField (wire.Fields w) with
        | Ok f0 =>
          if wire.ID f0 =? 0
          then Err ("void method got unexpected result, fields: " +:+ fmtFields (wire.Fields w))
          else Err ("void method got exception: " +:+ checkException spec (wire.ID f0))
        | Err msg => Err msg
        | Panic msg => Panic msg
        end
    | Some _ =>
      if negb (Nat.eqb (length (wire.Fields w)) 1)
      then Err ("method with return did not get 1 field in result: "
                +:+ fmtFields (wire.Fields w))
      else
        match firstField (wire.Fields w) with
        | Ok f0 =>
          if negb (wire.ID f0 =? 0)
          then Err ("method with return got exception: " +:+ checkException spec (wire.ID f0))
          else Ok tt
        | Err msg => Err msg
        | Panic msg => Panic msg
        end
    end
  end.

End Response.

End thrift.

(** ** Package [time] and [context] *)

Module time.

(** [time.Duration] counts nanoseconds in an [int64]; instants are
    nanoseconds on the same scale. *)
Definition Millisecond : Z := 1000000.
Definition Second : Z := 1000 * Millisecond.

(** Two's-complement wrap-around of [int64] arithmetic. *)
Definition wrap64 (z : Z) : Z := (z + 2 ^ 63) mod 2 ^ 64 - 2 ^ 63.

(** [d1 * d2] on [time.Duration]. *)
Definition mul (d1 d2 : Z) : Z := wrap64 (d1 * d2).

End time.

Module context.

(** The part of a [context.Context] the transport reads: its deadline. *)
Record Context : Type := mkContext { Deadline : option Z }.

Definition Background : Context := mkContext None.

(** [context.WithTimeout(parent, d)] called at instant [now]: the earlier of
    the parent's deadline and [now + d]. *)
Definition WithTimeout (now : Z) (parent : Context) (d : Z) : Context :=
  match Deadline parent with
  | Some p => mkContext (Some (Z.min p (now + d)))
  | None => mkContext (Some (now + d))
  end.

End context.

(** ** Package [net/http]: headers and exchanges *)

Module http.

Definition isLower (c : ascii) : bool :=
  (97 <=? N_of_ascii c)%N && (N_of_ascii c <=? 122)%N.
Definition isUpper (c : ascii) : bool :=
  (65 <=? N_of_ascii c)%N && (N_of_ascii c <=? 90)%N.
Definition isDigit (c : ascii) : bool :=
  (48 <=? N_of_ascii c)%N && (N_of_ascii c <=? 57)%N.

(** The bytes allowed in a header field name (RFC 7230 token characters). *)
Definition validHeaderFieldByte (c : ascii) : bool :=
  isLower c || isUpper c || isDigit c ||
  existsb (Ascii.eqb c)
    ["!"; "#"; "$"; "%"; "&"; "'"; "*"; "+"; "-"; "."; "^"; "_"; "`"; "|"; "~"]%char.

Fixpoint allValid (s : string) : bool :=
  match s with
  | EmptyString => true
  | String c s' => validHeaderFieldByte c && allValid s'
  end.

Fixpoint canonicalize (upper : bool) (s : string) : string :=
  match s with
  | EmptyString => EmptyString
  | String c s' =>
    let c' :=
      if upper && isLower c then ascii_of_N (N_of_ascii c - 32)
      else if negb upper && isUpper c then ascii_of_N (N_of_ascii c + 32)
      else c in
    String c' (canonicalize (Ascii.eqb c' "-") s')
  end.

(** [http.CanonicalHeaderKey]: the first letter and every letter after a
    hyphen in upper case, the rest in lower case; a name with a byte that
    is not a token character is left as it is. *)
Definition CanonicalHeaderKey (s : string) : string :=
  if allValid s then canonicalize true s else s.

(** [http.Header], one value per name, stored under canonical names. *)
Definition Get (h : gmap string string) (key : string) : string :=
  default "" (h !! CanonicalHeaderKey key).

Definition Set_ (h : gmap string string) (key value : string) : gmap string string :=
  <[CanonicalHeaderKey key := value]> h.

(** An outbound request as the remote peer receives it. *)
Record Request : Type := mkRequest {
  URL : string;
  Header : gmap string string;
  Body : list Byte.byte
}.

(** Reading a response body to its end either yields the bytes or fails
    with an I/O error. *)
Inductive BodyRead : Type :=
| BodyOk (body : list Byte.byte)
| BodyFailed (err : string).

(** What the HTTP client reports for one exchange: the deadline elapsed
    before a definitive reply, the exchange failed before any reply was
    received, or a reply arrived. *)
Inductive Exchange : Type :=
| DeadlineElapsed
| Failed (err : string)
| Replied (status : Z) (header : gmap string string) (body : BodyRead).

End http.

(** ** Package [transport] *)

Module transport.

(** [transport.Request] and [transport.Response]. *)
Record Request : Type := mkRequest {
  Method : string;
  Body : list Byte.byte;
  Headers : gmap string string
}.

Record Response : Type := mkResponse {
  RespBody : list Byte.byte;
  RespHeaders : gmap string string
}.

Record HTTPOptions : Type := mkHTTPOptions {
  URLs : list string;
  SourceService : string;
  TargetService : string
}.

(** Modelled from the spec: [errNoURLs] and [errMissingTarget] are declared
    in the missing [transport/http.go]; the spec names the two
    configuration errors "no URLs" and "missing target". *)
Definition errNoURLs : string := "no URLs".
Definition errMissingTarget : string := "missing target".

(** A constructed transport holds its options. *)
Record Transport : Type := mkTransport { opts : HTTPOptions }.

(** Modelled from the spec: the constructor [HTTP] of the missing
    [transport/http.go]. "Construction validates: at least one target
    endpoint URL is configured; a non-empty target service name is
    configured. Source service name is optional." *)
Definition HTTP (o : HTTPOptions) : result Transport :=
  if Nat.eqb (length (URLs o)) 0 then Err errNoURLs
  else if String.eqb (TargetService o) "" then Err errMissingTarget
  else Ok (mkTransport o).

(** The metadata header names, as [TestHTTPCall] reads them back. *)
Definition hdrService : string := "RPC-Service".
Definition hdrCaller : string := "RPC-Caller".
Definition hdrProcedure : string := "RPC-Procedure".
Definition hdrTTL : string := "Context-TTL-MS".

Section Call.

(** What the transport advertises when the call has no deadline. The spec
    leaves it open ("omitted or a large default sent"): [None] omits the
    TTL header, [Some d] advertises the fixed duration [d]. *)
Variable noDeadline : option Z.

(** Which of the configured endpoints a call uses ("round-robin or fixed
    selection across calls is acceptable"). *)
Variable pick : nat.

(** The raw HTTP client, an external collaborator. *)
Variable roundTrip : http.Request -> http.Exchange.

(** Modelled from the spec: the remaining time the TTL header expresses,
    "derived from the caller-supplied deadline", read at instant [now]. *)
Definition remaining (now : Z) (ctx : context.Context) : option Z :=
  match context.Deadline ctx with
  | Some deadline => Some (deadline - now)
  | None => noDeadline
  end.

(** "Any additional request headers are passed through", under the names
    the HTTP layer normalises them to. *)
Definition passThrough (headers : gmap string string) : gmap string string :=
  map_fold (fun k v h => http.Set_ h k v) ∅ headers.

(** Modelled from the spec: the outbound request of a call, built by the
    missing [transport/http.go]. The payload is the body; the metadata
    headers are "service name (target), caller name (source, if
    configured), procedure name (request method), and a time-to-live
    header expressing the remaining time until the call's deadline in whole
    milliseconds". The metadata headers are set after the passed-through
    ones. *)
Definition newRequest (t : Transport) (now : Z) (ctx : context.Context)
    (r : Request) : http.Request :=
  let url := default "" (URLs (opts t) !! (pick mod length (URLs (opts t)))%nat) in
  let h0 := passThrough (Headers r) in
  let h1 := http.Set_ h0 hdrService (TargetService (opts t)) in
  let h2 :=
    if String.eqb (SourceService (opts t)) "" then h1
    else http.Set_ h1 hdrCaller (SourceService (opts t)) in
  let h3 := http.Set_ h2 hdrProcedure (Method r) in
  let h4 :=
    match remaining now ctx with
    | Some d => http.Set_ h3 hdrTTL (strconv.Itoa (Z.quot d time.Millisecond))
    | None => h3
    end in
  http.mkRequest url h4 (Body r).

(** Go's [context.DeadlineExceeded.Error()]. *)
Definition errDeadlineExceeded : string := "context deadline exceeded".

(** Modelled from the spec: [Call] of the missing [transport/http.go].
    Deadline elapsed: a deadline-exceeded error. No reply: the underlying
    I/O failure. A non-2xx status: "non-success response code: <code>". A
    2xx reply whose body cannot be read to its end: the underlying
    truncated-read failure. Otherwise the reply's body and headers. *)
Definition Call (t : Transport) (now : Z) (ctx : context.Context)
    (r : Request) : result Response :=
  match roundTrip (newRequest t now ctx r) with
  | http.DeadlineElapsed => Err errDeadlineExceeded
  | http.Failed err => Err err
  | http.Replied status header body =>
    if (status <? 200) || (300 <=? status)
    then Err ("non-success response code: " +:+ strconv.Itoa status)
    else
      match body with
      | http.BodyFailed err => Err err
      | http.BodyOk b => Ok (mkResponse b header)
      end
  end.

End Call.

(** Modelled from the spec: what the missing [transport/http.go] advertises
    for a call without a deadline. The spec allows "a large default sent
    when no deadline is set" and leaves the value open; the value is the
    one [TestHTTPCall] demands of a call made with [context.Background()],
    whose row of the table sets both [ttlMin] and [ttlMax] to
    [time.Second]. *)
Definition defaultTimeout : option Z := Some time.Second.

End transport.

(** ** [transport/http_test.go]: the harness of [TestHTTPCall] *)

Module http_test.

(** [bytes.Equal], which [assert.Equal] applies to byte slices. *)
Fixpoint bytesEqual (a b : list Byte.byte) : bool :=
  match a, b with
  | [], [] => true
  | x :: a', y :: b' => Byte.eqb x y && bytesEqual a' b'
  | _, _ => false
  end.

(** One row of the [tests] table. *)
Record testCase : Type := mkCase {
  ctx : context.Context;
  r : transport.Request;
  errMsg : string;
  ttlMin : Z;
  ttlMax : Z
}.

Definition body123 : list Byte.byte := [Byte.x01; Byte.x02; Byte.x03].

(** The five rows; [t0] is the instant at which [timeoutCtx] is made. *)
Definition tests (t0 : Z) : list testCase :=
  [ mkCase context.Background (transport.mkRequest "method" body123 ∅)
      "" time.Second time.Second;
    mkCase (context.WithTimeout t0 context.Background (3 * time.Second))
      (transport.mkRequest "method" body123 ∅)
      "" (3 * time.Second - 100 * time.Millisecond) (3 * time.Second);
    mkCase context.Background
      (transport.mkRequest "method" body123 {["fail" := "kill_conn"]}) "EOF" 0 0;
    mkCase context.Background
      (transport.mkRequest "method" body123 {["fail" := "bad_req"]})
      "non-success response code: 400" 0 0;
    mkCase context.Background
      (transport.mkRequest "method" body123 {["fail" := "flush_and_kill"]})
      "unexpected EOF" 0 0 ].

(** The [lastReq] variable the handler writes on each served request. *)
Record lastRequest : Type := mkLast {
  url : string;
  headers : gmap string string;
  body : list Byte.byte
}.

Definition noRequest : lastRequest := mkLast "" ∅ [].

(** What the handler has done with the connection when it returns: written
    a complete response, or hijacked and closed the connection, possibly
    after flushing the start of a response body. *)
Inductive handled : Type :=
| Written (status : Z) (header : gmap string string) (body : list Byte.byte)
| Killed (flushed : option (list Byte.byte)).

(** The handler of the test server: the [fail] request header selects a
    failure mode; otherwise the request is recorded in [lastReq] and
    answered with body [ok] and [Custom-Header: ok]. *)
Definition handler (lastReq : lastRequest) (q : http.Request) : handled * lastRequest :=
  let f := http.Get (http.Header q) "fail" in
  if String.eqb f "bad_req" then (Written 400 ∅ [], lastReq)
  else if String.eqb f "server_err" then (Written 500 ∅ [], lastReq)
  else if String.eqb f "flush_and_kill"
  then (Killed (Some (list_byte_of_string "some data")), lastReq)
  else if String.eqb f "kill_conn" then (Killed None, lastReq)
  else
    (Written 200 (http.Set_ ∅ "Custom-Header" "ok") (list_byte_of_string "ok"),
     mkLast (http.URL q) (http.Header q) (http.Body q)).

(** Go's [io.EOF] and [io.ErrUnexpectedEOF] texts. *)
Definition EOF : string := "EOF".
Definition ErrUnexpectedEOF : string := "unexpected EOF".

(** How Go's HTTP client sees what the handler did. A complete response
    arrives as it was written. A connection closed before any reply byte
    makes the exchange fail with [io.EOF], which the client reports with
    the method and URL in front. A connection closed after part of the
    body was flushed yields a 200 reply whose body read fails with
    [io.ErrUnexpectedEOF]. *)
Definition serve (q : http.Request) (h : handled) : http.Exchange :=
  match h with
  | Written status header b => http.Replied status header (http.BodyOk b)
  | Killed None => http.Failed ("Post " +:+ http.URL q +:+ ": " +:+ EOF)
  | Killed (Some _) => http.Replied 200 ∅ (http.BodyFailed ErrUnexpectedEOF)
  end.

(** [HTTPOptions] of the test for a server listening at [svrURL]. *)
Definition options (svrURL : string) : transport.HTTPOptions :=
  transport.mkHTTPOptions [svrURL +:+ "/rpc"] "source" "target".

(** [r.URL.Path] on the server: the request URL after the server's own
    base URL. *)
Fixpoint dropString (n : nat) (s : string) : string :=
  match n, s with
  | S n', String _ s' => dropString n' s'
  | _, _ => s
  end.

Definition Path (svrURL u : string) : string :=
  if gostrings.HasPrefix u svrURL then dropString (String.length svrURL) u else u.

Section Run.

Variable noDeadline : option Z.
Variable pick : nat.
Variable svrURL : string.

(** One iteration of the test loop, up to the assertions: the call is made
    at instant [now] against the server whose handler state is [lastReq];
    the result of [Call] and the handler state afterwards. *)
Definition runCase (t : transport.Transport) (now : Z) (lastReq : lastRequest)
    (tt : testCase) : result transport.Response * lastRequest :=
  let roundTrip := fun q => serve q (fst (handler lastReq q)) in
  let sent := transport.newRequest noDeadline pick t now (ctx tt) (r tt) in
  (transport.Call noDeadline pick roundTrip t now (ctx tt) (r tt),
   snd (handler lastReq sent)).

(** The TTL assertion: the header parses with [strconv.Atoi], and
    [time.Duration(ttlMS) * time.Millisecond] lies in the row's range. *)
Definition ttlInRange (tt : testCase) (hdr : string) : bool :=
  match strconv.Atoi hdr with
  | None => false
  | Some ttlMS =>
    let gotTTL := time.mul ttlMS time.Millisecond in
    (ttlMin tt <=? gotTTL) && (gotTTL <=? ttlMax tt)
  end.

(** The assertions of one iteration: [true] when none of them fails. *)
Definition assertions (tt : testCase)
    (out : result transport.Response * lastRequest) : bool :=
  let '(got, lastReq) := out in
  if negb (String.eqb (errMsg tt) "") then
    match got with
    | Err e => gostrings.Contains e (errMsg tt)
    | _ => false
    end
  else
    match got with
    | Ok resp =>
      bytesEqual (list_byte_of_string "ok") (transport.RespBody resp)
      && String.eqb (Path svrURL (url lastReq)) "/rpc"
      && String.eqb (http.Get (headers lastReq) "RPC-Service") "target"
      && String.eqb (http.Get (headers lastReq) "RPC-Caller") "source"
      && String.eqb (http.Get (headers lastReq) "RPC-Procedure") (transport.Method (r tt))
      && ttlInRange tt (http.Get (headers lastReq) "Context-TTL-MS")
      && String.eqb (default "" (transport.RespHeaders resp !! "Custom-Header")) "ok"
      && bytesEqual (body lastReq) (transport.Body (r tt))
    | _ => false
    end.

(** The loop over the table: every row is run at instant [now] against the
    handler state the rows before it left, and all assertions must hold. *)
Fixpoint runTests (t : transport.Transport) (now : Z) (lastReq : lastRequest)
    (rows : list testCase) : bool :=
  match rows with
  | [] => true
  | row :: rest =>
    let out := runCase t now lastReq row in
    assertions row out && runTests t now (snd out) rest
  end.

End Run.

End http_test.

(** ** Instances used by the examples *)

(** A decoder for the Thrift binary protocol: a struct is a sequence of
    fields, each a type byte, a big-endian [int16] id and the value,
    closed by a zero byte. *)
Module binary.

Definition u8 (b : Byte.byte) : Z := Z.of_N (Byte.to_N b).

Fixpoint beUint (bs : list Byte.byte) (acc : Z) : Z :=
  match bs with
  | [] => acc
  | b :: rest => beUint rest (acc * 256 + u8 b)
  end.

Definition signed (bits u : Z) : Z :=
  if u <? 2 ^ (bits - 1) then u else u - 2 ^ bits.

Definition readInt (n : nat) (bs : list Byte.byte) : option (Z * list Byte.byte) :=
  if (length bs <? n)%nat then None
  else Some (signed (8 * Z.of_nat n) (beUint (take n bs) 0), drop n bs).

Definition typeOfCode (c : Z) : option wire.TypeCode :=
  if c =? 2 then Some wire.TBool else if c =? 3 then Some wire.TI8
  else if c =? 4 then Some wire.TDouble else if c =? 6 then Some wire.TI16
  else if c =? 8 then Some wire.TI32 else if c =? 10 then Some wire.TI64
  else if c =? 11 then Some wire.TBinary else if c =? 12 then Some wire.TStruct
  else if c =? 13 then Some wire.TMap else if c =? 14 then Some wire.TSet
  else if c =? 15 then Some wire.TList else None.

Definition reader (A : Type) : Type := list Byte.byte -> option (A * list Byte.byte).

Definition readType : reader wire.TypeCode :=
  fun bs => '(c, rest) ← readInt 1 bs; t ← typeOfCode (Z.land c 255); Some (t, rest).

Fixpoint readFields (rv : wire.TypeCode -> reader wire.Value) (n : nat)
    : reader (list wire.Field) :=
  fun bs =>
    match n, bs with
    | S n', b :: rest =>
      if u8 b =? 0 then Some ([], rest)
      else
        t ← typeOfCode (u8 b);
        '(id, r1) ← readInt 2 rest;
        '(v, r2) ← rv t r1;
        '(fs, r3) ← readFields rv n' r2;
        Some (wire.mkField id v :: fs, r3)
    | _, _ => None
    end.

Fixpoint readItems (rv : reader wire.Value) (count : nat) : reader (list wire.Value) :=
  fun bs =>
    match count with
    | O => Some ([], bs)
    | S c =>
      '(v, r1) ← rv bs; '(vs, r2) ← readItems rv c r1; Some (v :: vs, r2)
    end.

Fixpoint readPairs (rk rv : reader wire.Value) (count : nat)
    : reader (list (wire.Value * wire.Value)) :=
  fun bs =>
    match count with
    | O => Some ([], bs)
    | S c =>
      '(k, r1) ← rk bs; '(v, r2) ← rv r1; '(kvs, r3) ← readPairs rk rv c r2;
      Some ((k, v) :: kvs, r3)
    end.

Definition readCount : reader nat :=
  fun bs => '(n, rest) ← readInt 4 bs; if n <? 0 then None else Some (Z.to_nat n, rest).

Fixpoint readValue (fuel : nat) (t : wire.TypeCode) : reader wire.Value :=
  fun bs =>
    match fuel with
    | O => None
    | S fuel' =>
      match t with
      | wire.TBool =>
        '(n, rest) ← readInt 1 bs;
        if n =? 0 then Some (wire.VBool false, rest)
        else if n =? 1 then Some (wire.VBool true, rest) else None
      | wire.TI8 => '(n, rest) ← readInt 1 bs; Some (wire.VI8 n, rest)
      | wire.TDouble => '(n, rest) ← readInt 8 bs; Some (wire.VDouble n, rest)
      | wire.TI16 => '(n, rest) ← readInt 2 bs; Some (wire.VI16 n, rest)
      | wire.TI32 => '(n, rest) ← readInt 4 bs; Some (wire.VI32 n, rest)
      | wire.TI64 => '(n, rest) ← readInt 8 bs; Some (wire.VI64 n, rest)
      | wire.TBinary =>
        '(n, rest) ← readCount bs;
        if (length rest <? n)%nat then None
        else Some (wire.VBinary (take n rest), drop n rest)
      | wire.TStruct =>
        '(fs, rest) ← readFields (readValue fuel') (length bs) bs;
        Some (wire.VStruct fs, rest)
      | wire.TMap =>
        '(kt, r1) ← readType bs; '(vt, r2) ← readType r1; '(n, r3) ← readCount r2;
        '(kvs, r4) ← readPairs (readValue fuel' kt) (readValue fuel' vt) n r3;
        Some (wire.VMap kt vt kvs, r4)
      | wire.TSet =>
        '(et, r1) ← readType bs; '(n, r2) ← readCount r1;
        '(vs, r3) ← readItems (readValue fuel' et) n r2;
        Some (wire.VSet et vs, r3)
      | wire.TList =>
        '(et, r1) ← readType bs; '(n, r2) ← readCount r1;
        '(vs, r3) ← readItems (readValue fuel' et) n r2;
        Some (wire.VList et vs, r3)
      end
    end.

#[export] Instance Binary : protocol.Protocol := {|
  protocol.Decode bs t :=
    match readValue (S (length bs)) t bs with
    | Some (w, _) => inl w
    | None => inr "unexpected EOF"
    end
|}.

(** A codec that has drifted from its contract: whatever is asked for, it
    answers with an [i32]. *)
Definition Drifted : protocol.Protocol := {|
  protocol.Decode _ _ := inl (wire.VI32 0)
|}.

End binary.

(** A small type system, its native values and the printers of wire
    values. *)
Module sample.

Inductive Spec : Type :=
| BoolSpec
| I32Spec
| StringSpec
| StructSpec (name : string).

#[export] Instance TS : compile.TypeSpecs := {|
  compile.TypeSpec := Spec;
  compile.ThriftName s :=
    match s with
    | BoolSpec => "bool"
    | I32Spec => "i32"
    | StringSpec => "string"
    | StructSpec name => name
    end
|}.

Inductive Native : Type :=
| NBool (b : bool)
| NInt (n : Z)
| NString (s : string)
| NStruct (fields : list (Z * wire.Value)).

Definition valueFromWire (s : @compile.TypeSpec TS) (w : wire.Value)
    : Native + string :=
  match s, w with
  | BoolSpec, wire.VBool b => inl (NBool b)
  | I32Spec, wire.VI32 n => inl (NInt n)
  | StringSpec, wire.VBinary bs => inl (NString (string_of_list_byte bs))
  | StructSpec _, wire.VStruct fs =>
    inl (NStruct (map (fun f => (wire.ID f, wire.FieldValue f)) fs))
  | _, _ => inr "wire type does not match the spec"
  end.

Definition fmtBytes (bs : list Byte.byte) : string :=
  String.concat " " (map (fun b => strconv.Itoa (binary.u8 b)) bs).

Definition fmtType (t : wire.TypeCode) : string :=
  match t with
  | wire.TBool => "TBool" | wire.TI8 => "TI8" | wire.TDouble => "TDouble"
  | wire.TI16 => "TI16" | wire.TI32 => "TI32" | wire.TI64 => "TI64"
  | wire.TBinary => "TBinary" | wire.TStruct => "TStruct" | wire.TMap => "TMap"
  | wire.TSet => "TSet" | wire.TList => "TList"
  end.

Fixpoint fmtValue (w : wire.Value) : string :=
  match w with
  | wire.VBool b => "TBool(" +:+ (if b then "true" else "false") +:+ ")"
  | wire.VI8 n => "TI8(" +:+ strconv.Itoa n +:+ ")"
  | wire.VDouble n => "TDouble(" +:+ strconv.Itoa n +:+ ")"
  | wire.VI16 n => "TI16(" +:+ strconv.Itoa n +:+ ")"
  | wire.VI32 n => "TI32(" +:+ strconv.Itoa n +:+ ")"
  | wire.VI64 n => "TI64(" +:+ strconv.Itoa n +:+ ")"
  | wire.VBinary bs => "TBinary([" +:+ fmtBytes bs +:+ "])"
  | wire.VStruct fs =>
    "{" +:+ String.concat ", "
      (map (fun f => match f with
                     | wire.mkField id v => strconv.Itoa id +:+ ": " +:+ fmtValue v
                     end) fs) +:+ "}"
  | wire.VMap k v items =>
    "map[" +:+ fmtType k +:+ "]" +:+ fmtType v +:+ "{" +:+ String.concat ", "
      (map (fun kv => fmtValue (fst kv) +:+ ": " +:+ fmtValue (snd kv)) items) +:+ "}"
  | wire.VSet e items =>
    "set[" +:+ fmtType e +:+ "]{" +:+ String.concat ", " (map fmtValue items) +:+ "}"
  | wire.VList e items =>
    "[]" +:+ fmtType e +:+ "{" +:+ String.concat ", " (map fmtValue items) +:+ "}"
  end.

Definition fmtFields (fs : list wire.Field) : string :=
  "[" +:+ String.concat " "
    (map (fun f => "{ID:" +:+ strconv.Itoa (wire.ID f) +:+ " Value:"
                   +:+ fmtValue (wire.FieldValue f) +:+ "}") fs) +:+ "]".

(** Response envelopes on the wire. *)

(** [{0: "ok"}]. *)
Definition okString : list Byte.byte :=
  [Byte.x0b; Byte.x00; Byte.x00; Byte.x00; Byte.x00; Byte.x00; Byte.x02;
   Byte.x6f; Byte.x6b; Byte.x00].

(** The empty struct. *)
Definition empty : list Byte.byte := [Byte.x00].

(** [{0: true}]. *)
Definition okBool : list Byte.byte :=
  [Byte.x02; Byte.x00; Byte.x00; Byte.x01; Byte.x00].

(** [{7: {1: 42}}]: an exception struct under field id 7. *)
Definition exception7 : list Byte.byte :=
  [Byte.x0c; Byte.x00; Byte.x07;
   Byte.x08; Byte.x00; Byte.x01; Byte.x00; Byte.x00; Byte.x00; Byte.x2a; Byte.x00;
   Byte.x00].

(** [{8: true}]. *)
Definition only8 : list Byte.byte :=
  [Byte.x02; Byte.x00; Byte.x08; Byte.x01; Byte.x00].

(** [{7: true, 8: true}]. *)
Definition two78 : list Byte.byte :=
  [Byte.x02; Byte.x00; Byte.x07; Byte.x01;
   Byte.x02; Byte.x00; Byte.x08; Byte.x01; Byte.x00].

(** [{0: true, 7: {1: 42}}]. *)
Definition resultAnd7 : list Byte.byte :=
  [Byte.x02; Byte.x00; Byte.x00; Byte.x01;
   Byte.x0c; Byte.x00; Byte.x07;
   Byte.x08; Byte.x00; Byte.x01; Byte.x00; Byte.x00; Byte.x00; Byte.x2a; Byte.x00;
   Byte.x00].

(** Method metadata. *)
Definition ex7 : compile.FieldSpec := compile.mkFieldSpec 7 "notFound" (StructSpec "NotFound").

(** [string get() throws (7: NotFound notFound)]. *)
Definition getString : compile.FunctionSpec :=
  compile.mkFunctionSpec (Some (compile.mkResultSpec (Some StringSpec) [ex7])).

(** [bool check() throws (7: NotFound notFound)]. *)
Definition checkBool : compile.FunctionSpec :=
  compile.mkFunctionSpec (Some (compile.mkResultSpec (Some BoolSpec) [ex7])).

(** [void ping()]. *)
Definition ping : compile.FunctionSpec :=
  compile.mkFunctionSpec (Some (compile.mkResultSpec None [])).

(** [void remove() throws (7: NotFound notFound)]. *)
Definition remove : compile.FunctionSpec :=
  compile.mkFunctionSpec (Some (compile.mkResultSpec None [ex7])).

(** A function spec without a result spec. *)
Definition oneway : compile.FunctionSpec := compile.mkFunctionSpec None.

End sample.


(** * Properties *)

(** ** Strings and decimal numbers *)

Module facts.

Lemma append_assoc (a b c : string) : (a +:+ b) +:+ c = a +:+ (b +:+ c).
Proof. induction a as [|x a IH]; simpl; [reflexivity | f_equal; exact IH]. Qed.

Lemma HasPrefix_spec (s p : string) :
  gostrings.HasPrefix s p = true <-> exists post, s = p +:+ post.
Proof.
  revert s. induction p as [|a p IH]; intros s; simpl.
  - split; [intros _; now exists s | reflexivity].
  - destruct s as [|b s].
    + split; [discriminate | intros [post H]; discriminate].
    + destruct (Ascii.eqb_spec a b) as [->|Hne].
      * rewrite IH. split; intros [post H]; exists post; simpl in *; congruence.
      * split; [discriminate | intros [post H]; simpl in H; congruence].
Qed.

(** [strings.Contains] decides containment. *)
Lemma Contains_spec (s sub : string) :
  gostrings.Contains s sub = true <-> gostrings.Within sub s.
Proof.
  unfold gostrings.Within. induction s as [|c s IH].
  - simpl. rewrite orb_false_r, HasPrefix_spec. split.
    + intros [post H]. now exists EmptyString, post.
    + intros [[|x pre] [post H]]; [now exists post | discriminate].
  - cbn [gostrings.Contains]. rewrite orb_true_iff, IH, HasPrefix_spec. split.
    + intros [[post H] | (pre & post & H)].
      * now exists EmptyString, post.
      * exists (String c pre), post. simpl. now rewrite H.
    + intros ([|x pre] & post & H).
      * left. now exists post.
      * right. exists pre, post. simpl in H. congruence.
Qed.

Lemma not_Within (s sub : string) :
  gostrings.Contains s sub = false -> ~ gostrings.Within sub s.
Proof. intros H W. apply Contains_spec in W. congruence. Qed.

Lemma Within_intro (pre sub post : string) :
  gostrings.Within sub (pre +:+ sub +:+ post).
Proof. now exists pre, post. Qed.

(** The digits [Itoa] prints for a positive number parse back to it, and
    they start with neither sign. *)
Lemma uint_digits (p : positive) :
  exists c rest,
    NilZero.string_of_uint (Pos.to_uint p) = String c rest /\
    Ascii.eqb c "-" = false /\ Ascii.eqb c "+" = false /\
    NilZero.uint_of_string (String c rest) = Some (Pos.to_uint p).
Proof.
  assert (Hnz : Pos.to_uint p <> Nil).
  { intros H. apply (f_equal Pos.of_uint) in H.
    rewrite DecimalPos.Unsigned.of_to in H. discriminate. }
  pose proof (NilZero.usu _ Hnz) as Hu.
  destruct (NilZero.string_of_uint (Pos.to_uint p)) as [|c rest] eqn:E.
  - discriminate.
  - exists c, rest. repeat split; trivial.
    + destruct (Ascii.eqb_spec c "-") as [->|]; [|reflexivity].
      simpl in Hu. destruct (NilEmpty.uint_of_string rest); discriminate.
    + destruct (Ascii.eqb_spec c "+") as [->|]; [|reflexivity].
      simpl in Hu. destruct (NilEmpty.uint_of_string rest); discriminate.
Qed.

(** [Atoi] reads back what [Itoa] prints, for every [int]. *)
Lemma Atoi_Itoa (i : Z) :
  strconv.minInt <= i <= strconv.maxInt -> strconv.Atoi (strconv.Itoa i) = Some i.
Proof.
  intros Hr. unfold strconv.Itoa. destruct i as [|p|p].
  - reflexivity.
  - cbn [Z.to_int NilZero.string_of_int].
    destruct (uint_digits p) as (c & rest & -> & Hm & Hp & Hu).
    unfold strconv.Atoi. rewrite Hm, Hp. cbn [orb]. rewrite Hu.
    replace (N.of_uint (Pos.to_uint p)) with (N.pos p).
    2:{ change (Pos.to_uint p) with (N.to_uint (N.pos p)).
        now rewrite DecimalN.Unsigned.of_to. }
    cbn [Z.of_N].
    destruct (Z.leb_spec strconv.minInt (Z.pos p)); [|lia].
    destruct (Z.leb_spec (Z.pos p) strconv.maxInt); [reflexivity|lia].
  - cbn [Z.to_int NilZero.string_of_int].
    destruct (uint_digits p) as (c & rest & E & _ & _ & Hu).
    rewrite E. unfold strconv.Atoi. cbn [Ascii.eqb Bool.eqb orb]. rewrite Hu.
    replace (N.of_uint (Pos.to_uint p)) with (N.pos p).
    2:{ change (Pos.to_uint p) with (N.to_uint (N.pos p)).
        now rewrite DecimalN.Unsigned.of_to. }
    cbn [Z.of_N]. change (- Z.pos p) with (Z.neg p).
    destruct (Z.leb_spec strconv.minInt (Z.neg p)); [|lia].
    destruct (Z.leb_spec (Z.neg p) strconv.maxInt); [reflexivity|lia].
Qed.

(** A header that was just set reads back; setting another name leaves it. *)
Lemma Get_Set_eq (h : gmap string string) (k v : string) :
  http.Get (http.Set_ h k v) k = v.
Proof. unfold http.Get, http.Set_. now rewrite lookup_insert_eq. Qed.

Lemma Get_Set_ne (h : gmap string string) (k k' v : string) :
  http.CanonicalHeaderKey k <> http.CanonicalHeaderKey k' ->
  http.Get (http.Set_ h k v) k' = http.Get h k'.
Proof. intros H. unfold http.Get, http.Set_. now rewrite lookup_insert_ne. Qed.

End facts.

(** ** The result resolver of [thrift/response.go] *)

Module thrift_spec.

Section Resolver.

Context {TS : compile.TypeSpecs} {Binary : protocol.Protocol} {Native : Type}.
Variable valueFromWire : compile.TypeSpec -> wire.Value -> Native + string.
Variable fmtValue : wire.Value -> string.
Variable fmtFields : list wire.Field -> string.

Abbreviation ResponseBytesToMap := (thrift.ResponseBytesToMap valueFromWire fmtValue).
Abbreviation CheckSuccess := (thrift.CheckSuccess fmtFields).
Abbreviation rangeFields := (thrift.rangeFields valueFromWire fmtValue).

(** The codec decodes [bytes] to the struct with fields [fs]: a decodable
    envelope. *)
Definition decodesTo (bytes : list Byte.byte) (fs : list wire.Field) : Prop :=
  protocol.Decode bytes wire.TStruct = inl (wire.VStruct fs).

(** The exceptions a method declares (none without a result spec). *)
Definition exceptionsOf (spec : compile.FunctionSpec) : list compile.FieldSpec :=
  match compile.ResultSpec spec with
  | Some rs => compile.Exceptions rs
  | None => []
  end.

Definition declared (spec : compile.FunctionSpec) (id : Z) : Prop :=
  exists ex, ex ∈ exceptionsOf spec /\ compile.ID ex = id.

Definition undeclared (spec : compile.FunctionSpec) (id : Z) : Prop :=
  forall ex, ex ∈ exceptionsOf spec -> compile.ID ex <> id.

(** What one iteration of the loop of [ResponseBytesToMap] does with a
    field: the entry it stores, or the error it returns. *)
Definition resolveField (spec : compile.FunctionSpec) (f : wire.Field)
    : result (string * Native) :=
  if wire.ID f =? 0 then
    match thrift.returnTypeOf spec with
    | None =>
      Err ("got unexpected result for void method: " +:+ fmtValue (wire.FieldValue f))
    | Some rt =>
      match valueFromWire rt (wire.FieldValue f) with
      | inr err =>
        Err ("failed to parse result field " +:+ strconv.Itoa (wire.ID f) +:+ ": " +:+ err)
      | inl v => Ok ("result", v)
      end
    end
  else
    match thrift.getFieldMap (exceptionsOf spec) !! wire.ID f with
    | None =>
      Err ("got unknown exception with ID " +:+ strconv.Itoa (wire.ID f) +:+ ": "
           +:+ fmtValue (wire.FieldValue f))
    | Some exSpec =>
      match valueFromWire (compile.FieldType exSpec) (wire.FieldValue f) with
      | inr err =>
        Err ("failed to parse result field " +:+ strconv.Itoa (wire.ID f) +:+ ": " +:+ err)
      | inl v => Ok (compile.Name exSpec, v)
      end
    end.

(** The text [CheckSuccess] puts in front of an exception's description. *)
Definition exceptionPrefix (spec : compile.FunctionSpec) : string :=
  match thrift.returnTypeOf spec with
  | None => "void method got exception: "
  | Some _ => "method with return got exception: "
  end.

(** The envelope invariants of the data model, in the spec's words: for a
    method with a return type, exactly one field, with id 0 and a value
    matching the declared return type, or exactly one field with a nonzero
    id matching a declared exception; for a void method, zero fields, or
    exactly one field with a nonzero id matching a declared exception. *)
Definition wellFormed (spec : compile.FunctionSpec) (fs : list wire.Field) : Prop :=
  (exists id v, fs = [wire.mkField id v] /\ id <> 0 /\ declared spec id) \/
  match thrift.returnTypeOf spec with
  | Some rt => exists v d, fs = [wire.mkField 0 v] /\ valueFromWire rt v = inl d
  | None => fs = []
  end.

(** *** Lemmas on the helpers *)

Lemma getFieldMap_fold (exs : list compile.FieldSpec) (m : gmap Z compile.FieldSpec)
    (id : Z) (ex : compile.FieldSpec) :
  foldl (fun m f => <[compile.ID f := f]> m) m exs !! id = Some ex ->
  (ex ∈ exs /\ compile.ID ex = id) \/ m !! id = Some ex.
Proof.
  revert m. induction exs as [|e exs IH]; intros m H; simpl in H.
  - now right.
  - destruct (IH _ H) as [[Hin Hid] | Hm].
    + left. split; [now apply list_elem_of_further | exact Hid].
    + destruct (decide (compile.ID e = id)) as [Heq | Hne].
      * rewrite <- Heq, lookup_insert_eq in Hm. injection Hm as <-.
        left. split; [apply list_elem_of_here | exact Heq].
      * rewrite lookup_insert_ne in Hm by exact Hne. now right.
Qed.

Lemma getFieldMap_Some (exs : list compile.FieldSpec) (id : Z) (ex : compile.FieldSpec) :
  thrift.getFieldMap exs !! id = Some ex -> ex ∈ exs /\ compile.ID ex = id.
Proof.
  intros H. destruct (getFieldMap_fold _ _ _ _ H) as [?|Hm]; [assumption|].
  rewrite lookup_empty in Hm. discriminate.
Qed.

Lemma getFieldMap_None (spec : compile.FunctionSpec) (id : Z) :
  undeclared spec id -> thrift.getFieldMap (exceptionsOf spec) !! id = None.
Proof.
  intros Hu. destruct (thrift.getFieldMap (exceptionsOf spec) !! id) as [ex|] eqn:E.
  - apply getFieldMap_Some in E as [Hin Hid]. now destruct (Hu ex Hin).
  - reflexivity.
Qed.

Lemma responseBytesToWire_decoded (bytes : list Byte.byte) (fs : list wire.Field) :
  decodesTo bytes fs -> thrift.responseBytesToWire bytes = Ok (wire.mkStruct fs).
Proof. unfold decodesTo, thrift.responseBytesToWire. now intros ->. Qed.

Lemma ResponseBytesToMap_decoded (spec : compile.FunctionSpec)
    (bytes : list Byte.byte) (fs : list wire.Field) :
  decodesTo bytes fs ->
  ResponseBytesToMap spec bytes =
  rangeFields spec (thrift.getFieldMap (exceptionsOf spec)) fs ∅.
Proof.
  intros H. unfold thrift.ResponseBytesToMap.
  rewrite (responseBytesToWire_decoded _ _ H). unfold exceptionsOf.
  now destruct (compile.ResultSpec spec).
Qed.

Lemma rangeFields_cons (spec : compile.FunctionSpec) (f : wire.Field)
    (rest : list wire.Field) (res : gmap string Native) :
  rangeFields spec (thrift.getFieldMap (exceptionsOf spec)) (f :: rest) res =
  match resolveField spec f with
  | Ok (k, v) =>
    rangeFields spec (thrift.getFieldMap (exceptionsOf spec)) rest (<[k := v]> res)
  | Err e => Err e
  | Panic msg => Panic msg
  end.
Proof.
  unfold resolveField. cbn [thrift.rangeFields].
  destruct (wire.ID f =? 0).
  - destruct (thrift.returnTypeOf spec); [|reflexivity].
    now destruct (valueFromWire _ _).
  - destruct (thrift.getFieldMap _ !! _); [|reflexivity].
    now destruct (valueFromWire _ _).
Qed.

(** For a void method, an envelope that carries a field with id 0 never
    gets through the loop. *)
Lemma rangeFields_void_result (spec : compile.FunctionSpec)
    (specs : gmap Z compile.FieldSpec) (fs : list wire.Field)
    (res : gmap string Native) :
  thrift.returnTypeOf spec = None ->
  (exists f, f ∈ fs /\ wire.ID f = 0) ->
  isErr (rangeFields spec specs fs res) = true.
Proof.
  intros Hv. revert res. induction fs as [|f fs IH]; intros res [g [Hin Hid]].
  - now apply elem_of_nil in Hin.
  - cbn [thrift.rangeFields]. destruct (Z.eqb_spec (wire.ID f) 0) as [H0|H0].
    + now rewrite Hv.
    + destruct (specs !! wire.ID f); [|reflexivity].
      destruct (valueFromWire _ _); [|reflexivity].
      apply IH. exists g. split; [|exact Hid].
      apply elem_of_cons in Hin as [->|Hin]; [contradiction | exact Hin].
Qed.

(** *** Properties *)

(** C1: for a method that declares a return type and a decodable envelope
    whose struct holds exactly the field [{id: 0, value: v}] with [v]
    decodable as that type, [CheckSuccess] returns no error and
    [ResponseBytesToMap] returns the one-entry map from ["result"] to the
    decoded value. *)
Theorem C1_result_envelope_succeeds (spec : compile.FunctionSpec)
    (rs : compile.ResultSpecRec) (rt : compile.TypeSpec)
    (bytes : list Byte.byte) (v : wire.Value) (d : Native) :
  compile.ResultSpec spec = Some rs ->
  compile.ReturnType rs = Some rt ->
  decodesTo bytes [wire.mkField 0 v] ->
  valueFromWire rt v = inl d ->
  CheckSuccess spec bytes = Ok tt /\
  ResponseBytesToMap spec bytes = Ok {["result" := d]}.
Proof.
  intros Hrs Hrt Hdec Hv.
  assert (Hret : thrift.returnTypeOf spec = Some rt).
  { unfold thrift.returnTypeOf. now rewrite Hrs. }
  split.
  - unfold thrift.CheckSuccess.
    rewrite (responseBytesToWire_decoded _ _ Hdec), Hret. reflexivity.
  - rewrite (ResponseBytesToMap_decoded _ _ _ Hdec), rangeFields_cons.
    unfold resolveField. cbn [wire.ID wire.FieldValue Z.eqb].
    rewrite Hret, Hv. cbn [thrift.rangeFields]. now rewrite insert_empty.
Qed.

(** C2, as the code has it: for a void method and a decodable envelope
    with more than one field, [CheckSuccess] returns an error that goes by
    the first field. With id 0 it is the violation that lists all fields;
    with a nonzero id it is the exception report for that id alone. *)
Theorem C2_void_many_fields (spec : compile.FunctionSpec)
    (bytes : list Byte.byte) (f0 f1 : wire.Field) (rest : list wire.Field) :
  thrift.returnTypeOf spec = None ->
  decodesTo bytes (f0 :: f1 :: rest) ->
  (wire.ID f0 = 0 ->
   CheckSuccess spec bytes =
   Err ("void method got unexpected result, fields: " +:+ fmtFields (f0 :: f1 :: rest))) /\
  (wire.ID f0 <> 0 ->
   CheckSuccess spec bytes =
   Err ("void method got exception: " +:+ thrift.checkException spec (wire.ID f0))).
Proof.
  intros Hv Hdec. unfold thrift.CheckSuccess.
  rewrite (responseBytesToWire_decoded _ _ Hdec), Hv.
  cbn [wire.Fields length Nat.eqb thrift.firstField lookup list_lookup].
  split; intros H0.
  - now rewrite H0.
  - destruct (Z.eqb_spec (wire.ID f0) 0); [contradiction | reflexivity].
Qed.

(** C3, as the code has it: for a decodable envelope whose first field has
    a nonzero id that the method does not declare, [ResponseBytesToMap]
    fails with the unknown-exception error naming the id and the raw
    value; [CheckSuccess], for a void method or when that field is the
    only one, returns the exception report with the description of
    [checkException]: "unknown, method has no exceptions" when the method
    declares none, "unknown" when it declares some. For an id that is
    declared, the description is the declared name and the type name. *)
Theorem C3_unknown_exception (spec : compile.FunctionSpec)
    (bytes : list Byte.byte) (f : wire.Field) (rest : list wire.Field) :
  decodesTo bytes (f :: rest) ->
  wire.ID f <> 0 ->
  undeclared spec (wire.ID f) ->
  ResponseBytesToMap spec bytes =
    Err ("got unknown exception with ID " +:+ strconv.Itoa (wire.ID f) +:+ ": "
         +:+ fmtValue (wire.FieldValue f)) /\
  (thrift.returnTypeOf spec = None \/ rest = [] ->
   CheckSuccess spec bytes =
     Err (exceptionPrefix spec +:+ thrift.checkException spec (wire.ID f))) /\
  (exceptionsOf spec = [] ->
   thrift.checkException spec (wire.ID f) = "unknown, method has no exceptions") /\
  (exceptionsOf spec <> [] ->
   thrift.checkException spec (wire.ID f) = "unknown") /\
  (forall id pre ex post,
     exceptionsOf spec = pre ++ ex :: post ->
     compile.ID ex = id ->
     (forall e, e ∈ pre -> compile.ID e <> id) ->
     thrift.checkException spec id =
       compile.Name ex +:+ " " +:+ compile.ThriftName (compile.FieldType ex)).
Proof.
  intros Hdec Hnz Hun.
  assert (Hz : (wire.ID f =? 0) = false) by now apply Z.eqb_neq.
  assert (Hloop : forall exs id,
            (forall e, e ∈ exs -> compile.ID e <> id) ->
            thrift.rangeExceptions exs id = "unknown").
  { induction exs as [|e exs IH]; intros id Hall; [reflexivity|].
    cbn [thrift.rangeExceptions].
    destruct (Z.eqb_spec (compile.ID e) id) as [Heq|_].
    - destruct (Hall e); [apply list_elem_of_here | exact Heq].
    - apply IH. intros e' He'. apply Hall. now apply list_elem_of_further. }
  split; [|split; [|split; [|split]]].
  - rewrite (ResponseBytesToMap_decoded _ _ _ Hdec), rangeFields_cons.
    unfold resolveField. now rewrite Hz, (getFieldMap_None _ _ Hun).
  - intros Hshape. unfold thrift.CheckSuccess, exceptionPrefix.
    rewrite (responseBytesToWire_decoded _ _ Hdec).
    cbn [wire.Fields length Nat.eqb thrift.firstField lookup list_lookup].
    destruct (thrift.returnTypeOf spec) as [rt|].
    + destruct Hshape as [Hvoid | ->]; [discriminate|].
      cbn [length Nat.eqb negb]. now rewrite Hz.
    + now rewrite Hz.
  - unfold exceptionsOf, thrift.checkException.
    destruct (compile.ResultSpec spec) as [rs|]; [|reflexivity]. now intros ->.
  - unfold undeclared, exceptionsOf, thrift.checkException in *.
    destruct (compile.ResultSpec spec) as [rs|]; [|congruence].
    intros Hne. destruct (compile.Exceptions rs) as [|e exs] eqn:E; [congruence|].
    cbn [length Nat.eqb]. now apply Hloop.
  - intros id pre ex post Hexs Hid Hpre.
    unfold exceptionsOf, thrift.checkException in *.
    destruct (compile.ResultSpec spec) as [rs|].
    2:{ now destruct pre. }
    rewrite Hexs. replace (Nat.eqb (length (pre ++ ex :: post)) 0) with false.
    2:{ now destruct pre. }
    clear Hexs. induction pre as [|e pre IH]; cbn [app thrift.rangeExceptions].
    + rewrite <- Hid, Z.eqb_refl. reflexivity.
    + destruct (Z.eqb_spec (compile.ID e) id) as [Heq|_].
      * destruct (Hpre e); [apply list_elem_of_here | exact Heq].
      * apply IH. intros e' He'. apply Hpre. now apply list_elem_of_further.
Qed.

(** C4, as the code has it: for a void method and a decodable envelope
    that contains a field with id 0, both operations fail. When that field
    comes first, [ResponseBytesToMap] reports "got unexpected result for
    void method: " and the value, which contains "unexpected result for
    void method"; [CheckSuccess] reports "void method got unexpected
    result, fields: " and the fields, which contains "void method got
    unexpected result". *)
Theorem C4_void_result_field (spec : compile.FunctionSpec)
    (bytes : list Byte.byte) (fs : list wire.Field) :
  thrift.returnTypeOf spec = None ->
  decodesTo bytes fs ->
  (exists f, f ∈ fs /\ wire.ID f = 0) ->
  isErr (ResponseBytesToMap spec bytes) = true /\
  isErr (CheckSuccess spec bytes) = true /\
  (forall f rest, fs = f :: rest -> wire.ID f = 0 ->
     exists msgMap msgCheck,
       ResponseBytesToMap spec bytes = Err msgMap /\
       msgMap = "got unexpected result for void method: " +:+ fmtValue (wire.FieldValue f) /\
       gostrings.Within "unexpected result for void method" msgMap /\
       CheckSuccess spec bytes = Err msgCheck /\
       msgCheck = "void method got unexpected result, fields: " +:+ fmtFields fs /\
       gostrings.Within "void method got unexpected result" msgCheck).
Proof.
  intros Hv Hdec Hex. split; [|split].
  - rewrite (ResponseBytesToMap_decoded _ _ _ Hdec).
    now apply rangeFields_void_result.
  - unfold thrift.CheckSuccess.
    rewrite (responseBytesToWire_decoded _ _ Hdec), Hv.
    destruct fs as [|f rest].
    + destruct Hex as [g [Hin _]]. now apply elem_of_nil in Hin.
    + cbn [wire.Fields length Nat.eqb thrift.firstField lookup list_lookup].
      now destruct (wire.ID f =? 0).
  - intros f rest -> H0. eexists _, _. split; [|split; [reflexivity|split; [|split; [|split; [reflexivity|]]]]].
    + rewrite (ResponseBytesToMap_decoded _ _ _ Hdec), rangeFields_cons.
      unfold resolveField. now rewrite H0, Hv.
    + exists "got ", (": " +:+ fmtValue (wire.FieldValue f)). reflexivity.
    + unfold thrift.CheckSuccess.
      rewrite (responseBytesToWire_decoded _ _ Hdec), Hv.
      cbn [wire.Fields length Nat.eqb thrift.firstField lookup list_lookup].
      now rewrite H0.
    + exists "", (", fields: " +:+ fmtFields (f :: rest)). reflexivity.
Qed.

(** C5, as the code has it: for a method with a return type and a
    decodable envelope of two fields, [CheckSuccess] fails with "method
    with return did not get 1 field in result: " and the fields.
    [ResponseBytesToMap] does not count fields: it returns the error of the
    first field that is rejected on its own, and the entries of both fields
    when neither is. *)
Theorem C5_return_two_fields (spec : compile.FunctionSpec) (rt : compile.TypeSpec)
    (bytes : list Byte.byte) (f1 f2 : wire.Field) :
  thrift.returnTypeOf spec = Some rt ->
  decodesTo bytes [f1; f2] ->
  CheckSuccess spec bytes =
    Err ("method with return did not get 1 field in result: " +:+ fmtFields [f1; f2]) /\
  ResponseBytesToMap spec bytes =
    match resolveField spec f1 with
    | Err e => Err e
    | Panic msg => Panic msg
    | Ok (k1, v1) =>
      match resolveField spec f2 with
      | Err e => Err e
      | Panic msg => Panic msg
      | Ok (k2, v2) => Ok (<[k2 := v2]> {[k1 := v1]})
      end
    end.
Proof.
  intros Hrt Hdec. split.
  - unfold thrift.CheckSuccess.
    rewrite (responseBytesToWire_decoded _ _ Hdec), Hrt. reflexivity.
  - rewrite (ResponseBytesToMap_decoded _ _ _ Hdec), rangeFields_cons.
    destruct (resolveField spec f1) as [[k1 v1]| |]; [|reflexivity..].
    rewrite rangeFields_cons.
    destruct (resolveField spec f2) as [[k2 v2]| |]; [|reflexivity..].
    cbn [thrift.rangeFields]. now rewrite insert_empty.
Qed.

Lemma TypeCode_eqb_eq (a b : wire.TypeCode) :
  wire.TypeCode_eqb a b = true <-> a = b.
Proof. destruct a, b; simpl; split; congruence. Qed.

Lemma rangeFields_no_panic (spec : compile.FunctionSpec)
    (specs : gmap Z compile.FieldSpec) (fs : list wire.Field)
    (res : gmap string Native) (msg : string) :
  rangeFields spec specs fs res <> Panic msg.
Proof.
  revert res. induction fs as [|f fs IH]; intros res; cbn [thrift.rangeFields].
  - discriminate.
  - destruct (wire.ID f =? 0).
    + destruct (thrift.returnTypeOf spec); [|discriminate].
      destruct (valueFromWire _ _); [apply IH | discriminate].
    + destruct (specs !! wire.ID f); [|discriminate].
      destruct (valueFromWire _ _); [apply IH | discriminate].
Qed.

(** C6: when the codec decodes the bytes to a root value whose type tag is
    not [TStruct], the envelope decoder panics, and so do both operations,
    instead of returning an error; if the codec honours its contract, no
    input makes the decoder or either operation panic. *)
Theorem C6_root_type_mismatch_panics (bytes : list Byte.byte) :
  (forall w,
     protocol.Decode bytes wire.TStruct = inl w ->
     wire.TypeOf w <> wire.TStruct ->
     thrift.responseBytesToWire bytes = Panic "Got unexpected type when parsing struct" /\
     forall spec,
       ResponseBytesToMap spec bytes = Panic "Got unexpected type when parsing struct" /\
       CheckSuccess spec bytes = Panic "Got unexpected type when parsing struct") /\
  (protocol.honoursContract Binary ->
   forall msg,
     thrift.responseBytesToWire bytes <> Panic msg /\
     forall spec,
       ResponseBytesToMap spec bytes <> Panic msg /\
       CheckSuccess spec bytes <> Panic msg).
Proof.
  split.
  - intros w Hdec Hty.
    assert (Hw : thrift.responseBytesToWire bytes =
                 Panic "Got unexpected type when parsing struct").
    { unfold thrift.responseBytesToWire. rewrite Hdec.
      destruct (wire.TypeCode_eqb (wire.TypeOf w) wire.TStruct) eqn:E; [|reflexivity].
      apply TypeCode_eqb_eq in E. contradiction. }
    split; [exact Hw|]. intros spec.
    unfold thrift.ResponseBytesToMap, thrift.CheckSuccess. now rewrite Hw.
  - intros Hc msg.
    assert (Hw : (exists e, thrift.responseBytesToWire bytes = Err e) \/
                 (exists s, thrift.responseBytesToWire bytes = Ok s)).
    { unfold thrift.responseBytesToWire.
      destruct (protocol.Decode bytes wire.TStruct) as [w|e] eqn:E; [|eauto].
      rewrite (Hc _ _ E). cbn. eauto. }
    split.
    + destruct Hw as [[e ->]|[s ->]]; discriminate.
    + intros spec. unfold thrift.ResponseBytesToMap, thrift.CheckSuccess.
      destruct Hw as [[e ->]|[s ->]]; [split; discriminate|].
      split; [apply rangeFields_no_panic|].
      destruct (thrift.returnTypeOf spec).
      * destruct (wire.Fields s) as [|f0 [|f1 rest]]; cbn; try discriminate.
        destruct (wire.ID f0 =? 0); discriminate.
      * destruct (wire.Fields s) as [|f0 rest]; cbn; try discriminate.
        destruct (wire.ID f0 =? 0); discriminate.
Qed.

(** C7, as the code has it: on a well-formed envelope on which
    [ResponseBytesToMap] succeeds, the map has at most one entry. It is
    empty for the empty envelope of a void method; it is the entry
    ["result"] for the field with id 0; it is the entry under the declared
    exception's name for a field with that exception's nonzero id. *)
Theorem C7_well_formed_map (spec : compile.FunctionSpec)
    (bytes : list Byte.byte) (fs : list wire.Field) (m : gmap string Native) :
  decodesTo bytes fs ->
  wellFormed spec fs ->
  ResponseBytesToMap spec bytes = Ok m ->
  (size m <= 1)%nat /\
  ((fs = [] /\ thrift.returnTypeOf spec = None /\ m = ∅) \/
   (exists v rt d,
      fs = [wire.mkField 0 v] /\ thrift.returnTypeOf spec = Some rt /\
      valueFromWire rt v = inl d /\ m = {["result" := d]}) \/
   (exists id v ex d,
      fs = [wire.mkField id v] /\ id <> 0 /\
      ex ∈ exceptionsOf spec /\ compile.ID ex = id /\
      valueFromWire (compile.FieldType ex) v = inl d /\
      m = {[compile.Name ex := d]})).
Proof.
  intros Hdec Hwf Hok.
  rewrite (ResponseBytesToMap_decoded _ _ _ Hdec) in Hok.
  assert (Hcases :
    (fs = [] /\ thrift.returnTypeOf spec = None /\ m = ∅) \/
    (exists v rt d,
      fs = [wire.mkField 0 v] /\ thrift.returnTypeOf spec = Some rt /\
      valueFromWire rt v = inl d /\ m = {["result" := d]}) \/
    (exists id v ex d,
      fs = [wire.mkField id v] /\ id <> 0 /\
      ex ∈ exceptionsOf spec /\ compile.ID ex = id /\
      valueFromWire (compile.FieldType ex) v = inl d /\
      m = {[compile.Name ex := d]})).
  { destruct Hwf as [(id & v & -> & Hnz & _) | Hwf].
    - right; right. rewrite rangeFields_cons in Hok. unfold resolveField in Hok.
      cbn [wire.ID wire.FieldValue] in Hok.
      destruct (Z.eqb_spec id 0) as [|_]; [contradiction|].
      destruct (thrift.getFieldMap (exceptionsOf spec) !! id) as [ex|] eqn:E;
        [|discriminate].
      apply getFieldMap_Some in E as [Hin Hid].
      destruct (valueFromWire (compile.FieldType ex) v) as [d|e] eqn:Ev;
        [|discriminate].
      cbn [thrift.rangeFields] in Hok. injection Hok as <-.
      exists id, v, ex, d. rewrite insert_empty. auto 10.
    - destruct (thrift.returnTypeOf spec) as [rt|] eqn:Hrt.
      + destruct Hwf as (v & d & -> & Hv). right; left.
        rewrite rangeFields_cons in Hok. unfold resolveField in Hok.
        cbn [wire.ID wire.FieldValue Z.eqb] in Hok. rewrite Hrt, Hv in Hok.
        cbn [thrift.rangeFields] in Hok. injection Hok as <-.
        exists v, rt, d. rewrite insert_empty. auto.
      + subst fs. left. cbn [thrift.rangeFields] in Hok. injection Hok as <-. auto. }
  split; [|exact Hcases].
  destruct Hcases as [(_ & _ & ->) | [(v & rt & d & _ & _ & _ & ->)
                                     | (id & v & ex & d & _ & _ & _ & _ & _ & ->)]].
  - rewrite map_size_empty. lia.
  - rewrite map_size_singleton. lia.
  - rewrite map_size_singleton. lia.
Qed.

End Resolver.

(** *** Concrete envelopes *)

Abbreviation sampleMap :=
  (thrift.ResponseBytesToMap (Binary:=binary.Binary) sample.valueFromWire sample.fmtValue).
Abbreviation sampleCheck :=
  (thrift.CheckSuccess (TS:=sample.TS) (Binary:=binary.Binary) sample.fmtFields).
Abbreviation sampleDecodes := (decodesTo (Binary:=binary.Binary)).

(** The binary decoder returns values of the type it was asked for. *)
Lemma Binary_typed (bs : list Byte.byte) (t : wire.TypeCode) (w : wire.Value) :
  protocol.Decode (Protocol:=binary.Binary) bs t = inl w -> wire.TypeOf w = t.
Proof.
  cbn [protocol.Decode binary.Binary].
  destruct (binary.readValue (S (length bs)) t bs) as [[w' rest]|] eqn:E;
    [|discriminate].
  intros [= <-]. cbn [binary.readValue] in E.
  destruct t;
    repeat match type of E with
           | (?x ≫= _) = Some _ =>
             destruct x as [[? ?]|]; cbn [mbind option_bind] in E; [|discriminate E]
           | (if ?b then _ else _) = Some _ => destruct b; [|try discriminate E]
           | None = Some _ => discriminate E
           end;
    injection E as <- _; reflexivity.
Qed.

Lemma Binary_honoursContract : protocol.honoursContract binary.Binary.
Proof. intros bs w. apply Binary_typed. Qed.

Lemma C1_witness :
  sampleCheck sample.getString sample.okString = Ok tt /\
  sampleMap sample.getString sample.okString = Ok {["result" := sample.NString "ok"]}.
Proof.
  apply (C1_result_envelope_succeeds (TS:=sample.TS) (Binary:=binary.Binary)
           sample.valueFromWire sample.fmtValue sample.fmtFields sample.getString
           (compile.mkResultSpec (TS:=sample.TS) (Some sample.StringSpec) [sample.ex7])
           sample.StringSpec sample.okString
           (wire.VBinary [Byte.x6f; Byte.x6b]) (sample.NString "ok"));
    reflexivity.
Defined.

(** C2 as stated fails: the void method [ping] receives the two fields
    [{7: true, 8: true}], and the error of [CheckSuccess] is the exception
    report for id 7; it does not list the fields. *)
Lemma C2_counterexample :
  let fs := [wire.mkField 7 (wire.VBool true); wire.mkField 8 (wire.VBool true)] in
  thrift.returnTypeOf sample.ping = None /\
  sampleDecodes sample.two78 fs /\
  (length fs > 1)%nat /\
  sampleCheck sample.ping sample.two78 =
    Err "void method got exception: unknown, method has no exceptions" /\
  ~ (exists msg, sampleCheck sample.ping sample.two78 = Err msg /\
                 gostrings.Within (sample.fmtFields fs) msg).
Proof.
  cbv zeta. repeat split; try reflexivity.
  - cbn. lia.
  - intros (msg & H & W). vm_compute in H. injection H as <-.
    revert W. apply facts.not_Within. vm_compute. reflexivity.
Qed.

Lemma C2_witness :
  sampleCheck sample.ping sample.resultAnd7 =
    Err ("void method got unexpected result, fields: "
         +:+ sample.fmtFields
               [wire.mkField 0 (wire.VBool true);
                wire.mkField 7 (wire.VStruct [wire.mkField 1 (wire.VI32 42)])]) /\
  sampleCheck sample.remove sample.two78 =
    Err ("void method got exception: " +:+ thrift.checkException sample.remove 7).
Proof.
  split.
  - apply (C2_void_many_fields (TS:=sample.TS) (Binary:=binary.Binary)
             sample.fmtFields sample.ping sample.resultAnd7
             (wire.mkField 0 (wire.VBool true))
             (wire.mkField 7 (wire.VStruct [wire.mkField 1 (wire.VI32 42)])) []);
      reflexivity.
  - apply (C2_void_many_fields (TS:=sample.TS) (Binary:=binary.Binary)
             sample.fmtFields sample.remove sample.two78
             (wire.mkField 7 (wire.VBool true))
             (wire.mkField 8 (wire.VBool true)) []);
      [reflexivity | reflexivity | discriminate].
Defined.

(** C3 as stated fails: the void method [ping] declares no exception and
    receives [{0: true, 7: {1: 42}}], which contains the undeclared id 7;
    [ResponseBytesToMap] stops at the field with id 0, and the error of
    [CheckSuccess] does not describe an exception as unknown. *)
Lemma C3_counterexample :
  let f7 := wire.mkField 7 (wire.VStruct [wire.mkField 1 (wire.VI32 42)]) in
  let fs := [wire.mkField 0 (wire.VBool true); f7] in
  sampleDecodes sample.resultAnd7 fs /\
  f7 ∈ fs /\ wire.ID f7 <> 0 /\ undeclared sample.ping (wire.ID f7) /\
  sampleMap sample.ping sample.resultAnd7 =
    Err "got unexpected result for void method: TBool(true)" /\
  sampleMap sample.ping sample.resultAnd7 <>
    Err ("got unknown exception with ID " +:+ strconv.Itoa (wire.ID f7) +:+ ": "
         +:+ sample.fmtValue (wire.FieldValue f7)) /\
  ~ (exists msg, sampleCheck sample.ping sample.resultAnd7 = Err msg /\
                 gostrings.Within "unknown" msg).
Proof.
  cbv zeta. repeat split; try reflexivity.
  - apply list_elem_of_further, list_elem_of_here.
  - discriminate.
  - intros ex Hin. cbn in Hin. now apply elem_of_nil in Hin.
  - vm_compute. discriminate.
  - intros (msg & H & W). vm_compute in H. injection H as <-.
    revert W. apply facts.not_Within. vm_compute. reflexivity.
Qed.

Lemma C3_witness :
  sampleMap sample.ping sample.two78 =
    Err "got unknown exception with ID 7: TBool(true)" /\
  sampleCheck sample.ping sample.two78 =
    Err "void method got exception: unknown, method has no exceptions" /\
  sampleMap sample.checkBool sample.only8 =
    Err "got unknown exception with ID 8: TBool(true)" /\
  sampleCheck sample.checkBool sample.only8 =
    Err "method with return got exception: unknown" /\
  thrift.checkException sample.checkBool 7 = "notFound NotFound".
Proof.
  assert (Hping : undeclared sample.ping 7).
  { intros ex Hin. cbn in Hin. now apply elem_of_nil in Hin. }
  assert (Hbool : undeclared sample.checkBool 8).
  { intros ex Hin. cbn in Hin. apply list_elem_of_singleton in Hin as ->. discriminate. }
  destruct (C3_unknown_exception (TS:=sample.TS) (Binary:=binary.Binary)
              sample.valueFromWire sample.fmtValue sample.fmtFields
              sample.ping sample.two78
              (wire.mkField 7 (wire.VBool true)) [wire.mkField 8 (wire.VBool true)]
              eq_refl ltac:(discriminate) Hping)
    as (A1 & A2 & A3 & _ & _).
  destruct (C3_unknown_exception (TS:=sample.TS) (Binary:=binary.Binary)
              sample.valueFromWire sample.fmtValue sample.fmtFields
              sample.checkBool sample.only8
              (wire.mkField 8 (wire.VBool true)) []
              eq_refl ltac:(discriminate) Hbool)
    as (B1 & B2 & _ & B4 & B5).
  split; [exact A1|]. split.
  { rewrite (A2 (or_introl eq_refl)), (A3 eq_refl). reflexivity. }
  split; [exact B1|]. split.
  { rewrite (B2 (or_intror eq_refl)), (B4 ltac:(discriminate)). reflexivity. }
  apply (B5 7 [] sample.ex7 [] eq_refl eq_refl).
  intros e He. now apply elem_of_nil in He.
Defined.

(** C4 as stated fails: the void method [ping] receives [{0: true}], and
    the error of [CheckSuccess] reads "void method got unexpected result,
    fields: ...", which does not contain "unexpected result for void
    method". *)
Lemma C4_counterexample :
  let fs := [wire.mkField 0 (wire.VBool true)] in
  thrift.returnTypeOf sample.ping = None /\
  sampleDecodes sample.okBool fs /\
  (exists f, f ∈ fs /\ wire.ID f = 0) /\
  sampleCheck sample.ping sample.okBool =
    Err "void method got unexpected result, fields: [{ID:0 Value:TBool(true)}]" /\
  ~ (exists msg, sampleCheck sample.ping sample.okBool = Err msg /\
                 gostrings.Within "unexpected result for void method" msg).
Proof.
  cbv zeta. repeat split; try reflexivity.
  - exists (wire.mkField 0 (wire.VBool true)). split; [apply list_elem_of_here | reflexivity].
  - intros (msg & H & W). vm_compute in H. injection H as <-.
    revert W. apply facts.not_Within. vm_compute. reflexivity.
Qed.

Lemma C4_witness :
  isErr (sampleMap sample.ping sample.okBool) = true /\
  isErr (sampleCheck sample.ping sample.okBool) = true /\
  sampleMap sample.ping sample.okBool =
    Err "got unexpected result for void method: TBool(true)" /\
  sampleCheck sample.ping sample.okBool =
    Err "void method got unexpected result, fields: [{ID:0 Value:TBool(true)}]".
Proof.
  assert (Hex : exists f, f ∈ [wire.mkField 0 (wire.VBool true)] /\ wire.ID f = 0).
  { exists (wire.mkField 0 (wire.VBool true)). split; [apply list_elem_of_here | reflexivity]. }
  destruct (C4_void_result_field (TS:=sample.TS) (Binary:=binary.Binary)
              sample.valueFromWire sample.fmtValue sample.fmtFields
              sample.ping sample.okBool [wire.mkField 0 (wire.VBool true)]
              eq_refl eq_refl Hex)
    as (A1 & A2 & A3).
  destruct (A3 _ _ eq_refl eq_refl) as (m1 & m2 & B1 & E1 & _ & B2 & E2 & _).
  split; [exact A1|]. split; [exact A2|].
  split; [rewrite B1, E1 | rewrite B2, E2]; reflexivity.
Defined.

(** C5 as stated fails: [checkBool] has a return type and receives the two
    fields [{0: true, 7: {1: 42}}]; [ResponseBytesToMap] does not fail, it
    returns both entries. *)
Lemma C5_counterexample :
  thrift.returnTypeOf sample.checkBool = Some sample.BoolSpec /\
  sampleDecodes sample.resultAnd7
    [wire.mkField 0 (wire.VBool true);
     wire.mkField 7 (wire.VStruct [wire.mkField 1 (wire.VI32 42)])] /\
  sampleMap sample.checkBool sample.resultAnd7 =
    Ok (<["notFound" := sample.NStruct [(1, wire.VI32 42)]]>
          {["result" := sample.NBool true]}) /\
  isErr (sampleMap sample.checkBool sample.resultAnd7) = false.
Proof. repeat split; vm_compute; reflexivity. Qed.

Lemma C5_witness :
  sampleCheck sample.checkBool sample.resultAnd7 =
    Err "method with return did not get 1 field in result: [{ID:0 Value:TBool(true)} {ID:7 Value:{1: TI32(42)}}]" /\
  sampleMap sample.checkBool sample.resultAnd7 =
    Ok (<["notFound" := sample.NStruct [(1, wire.VI32 42)]]>
          {["result" := sample.NBool true]}).
Proof.
  destruct (C5_return_two_fields (TS:=sample.TS) (Binary:=binary.Binary)
              sample.valueFromWire sample.fmtValue sample.fmtFields
              sample.checkBool sample.BoolSpec sample.resultAnd7
              (wire.mkField 0 (wire.VBool true))
              (wire.mkField 7 (wire.VStruct [wire.mkField 1 (wire.VI32 42)]))
              eq_refl eq_refl)
    as (A1 & A2).
  split; [rewrite A1 | rewrite A2]; reflexivity.
Defined.

Lemma C6_witness :
  thrift.responseBytesToWire (Binary:=binary.Drifted) sample.okBool =
    Panic "Got unexpected type when parsing struct" /\
  thrift.CheckSuccess (TS:=sample.TS) (Binary:=binary.Drifted) sample.fmtFields
    sample.ping sample.okBool = Panic "Got unexpected type when parsing struct" /\
  forall msg, thrift.responseBytesToWire (Binary:=binary.Binary) sample.okBool <> Panic msg.
Proof.
  destruct (C6_root_type_mismatch_panics (TS:=sample.TS) (Binary:=binary.Drifted)
              sample.valueFromWire sample.fmtValue sample.fmtFields sample.okBool)
    as (A & _).
  destruct (A (wire.VI32 0) eq_refl ltac:(discriminate)) as (A1 & A2).
  destruct (C6_root_type_mismatch_panics (TS:=sample.TS) (Binary:=binary.Binary)
              sample.valueFromWire sample.fmtValue sample.fmtFields sample.okBool)
    as (_ & B).
  split; [exact A1|]. split; [exact (proj2 (A2 sample.ping))|].
  intros msg. exact (proj1 (B Binary_honoursContract msg)).
Defined.

(** C7 as stated fails: for the void method [ping] the empty envelope is
    well formed, and the map returned for it has no key at all, neither
    ["result"] nor an exception's name. *)
Lemma C7_counterexample :
  sampleDecodes sample.empty [] /\
  wellFormed sample.valueFromWire sample.ping [] /\
  sampleMap sample.ping sample.empty = Ok ∅ /\
  forall key, (∅ : gmap string sample.Native) !! key = None.
Proof.
  split; [reflexivity|]. split; [right; reflexivity|]. split; [reflexivity|].
  intros key. apply lookup_empty.
Qed.

Lemma C7_witness :
  (size ({["result" := sample.NString "ok"]} : gmap string sample.Native) <= 1)%nat /\
  sampleDecodes sample.okString [wire.mkField 0 (wire.VBinary [Byte.x6f; Byte.x6b])] /\
  sampleMap sample.getString sample.okString = Ok {["result" := sample.NString "ok"]}.
Proof.
  assert (Hwf : wellFormed sample.valueFromWire sample.getString
                  [wire.mkField 0 (wire.VBinary [Byte.x6f; Byte.x6b])]).
  { right. cbn. exists (wire.VBinary [Byte.x6f; Byte.x6b]), (sample.NString "ok").
    split; reflexivity. }
  assert (Hok : sampleMap sample.getString sample.okString
                = Ok {["result" := sample.NString "ok"]}).
  { vm_compute. reflexivity. }
  split; [|split; [reflexivity | exact Hok]].
  exact (proj1 (C7_well_formed_map (TS:=sample.TS) (Binary:=binary.Binary)
                  sample.valueFromWire sample.fmtValue sample.getString
                  sample.okString _ _ eq_refl Hwf Hok)).
Defined.

End thrift_spec.

(** ** The transport's calls *)

Module transport_spec.

(** Two header names that differ after normalisation. *)
Ltac distinct_keys := vm_compute; discriminate.

Ltac other_key := rewrite facts.Get_Set_ne by distinct_keys.

Section Calls.

Variable noDeadline : option Z.
Variable pick : nat.

Abbreviation newRequest := (transport.newRequest noDeadline pick).
Abbreviation Call := (transport.Call noDeadline pick).

(** *** The outbound request *)

Lemma HTTP_Ok (o : transport.HTTPOptions) (t : transport.Transport) :
  transport.HTTP o = Ok t ->
  t = transport.mkTransport o /\ transport.URLs o <> [] /\ transport.TargetService o <> "".
Proof.
  unfold transport.HTTP. destruct (transport.URLs o) as [|u us]; [discriminate|].
  cbn [length Nat.eqb].
  destruct (String.eqb_spec (transport.TargetService o) ""); [discriminate|].
  intros [= <-]. repeat split; [discriminate | assumption].
Qed.

Lemma sent_Procedure (t : transport.Transport) (now : Z) (ctx : context.Context)
    (r : transport.Request) :
  http.Get (http.Header (newRequest t now ctx r)) "RPC-Procedure" = transport.Method r.
Proof.
  unfold transport.newRequest. cbn [http.Header].
  destruct (transport.remaining noDeadline now ctx);
    [unfold transport.hdrTTL; other_key|]; apply facts.Get_Set_eq.
Qed.

Lemma sent_Service (t : transport.Transport) (now : Z) (ctx : context.Context)
    (r : transport.Request) :
  http.Get (http.Header (newRequest t now ctx r)) "RPC-Service"
  = transport.TargetService (transport.opts t).
Proof.
  unfold transport.newRequest. cbn [http.Header].
  destruct (transport.remaining noDeadline now ctx);
    [unfold transport.hdrTTL; other_key|];
    (unfold transport.hdrProcedure; other_key;
     destruct (String.eqb (transport.SourceService (transport.opts t)) "");
     [|unfold transport.hdrCaller; other_key]; apply facts.Get_Set_eq).
Qed.

Lemma sent_Caller (t : transport.Transport) (now : Z) (ctx : context.Context)
    (r : transport.Request) :
  transport.SourceService (transport.opts t) <> "" ->
  http.Get (http.Header (newRequest t now ctx r)) "RPC-Caller"
  = transport.SourceService (transport.opts t).
Proof.
  intros Hsrc. unfold transport.newRequest. cbn [http.Header].
  destruct (String.eqb_spec (transport.SourceService (transport.opts t)) "");
    [contradiction|].
  destruct (transport.remaining noDeadline now ctx);
    [unfold transport.hdrTTL; other_key|];
    (unfold transport.hdrProcedure; other_key; apply facts.Get_Set_eq).
Qed.

(** The TTL header carries the remaining time in whole milliseconds; with
    nothing to advertise, the transport does not set it. *)
Lemma sent_TTL (t : transport.Transport) (now : Z) (ctx : context.Context)
    (r : transport.Request) :
  http.Get (http.Header (newRequest t now ctx r)) "Context-TTL-MS" =
  match transport.remaining noDeadline now ctx with
  | Some d => strconv.Itoa (Z.quot d time.Millisecond)
  | None => http.Get (transport.passThrough (transport.Headers r)) "Context-TTL-MS"
  end.
Proof.
  unfold transport.newRequest. cbn [http.Header].
  destruct (transport.remaining noDeadline now ctx); [apply facts.Get_Set_eq|].
  unfold transport.hdrProcedure; other_key.
  destruct (String.eqb (transport.SourceService (transport.opts t)) "");
    [|unfold transport.hdrCaller; other_key];
    unfold transport.hdrService; other_key; reflexivity.
Qed.

(** A header that is not one of the four metadata headers is the
    passed-through one. *)
Lemma sent_other (t : transport.Transport) (now : Z) (ctx : context.Context)
    (r : transport.Request) (key : string) :
  http.CanonicalHeaderKey key <> "Rpc-Service" ->
  http.CanonicalHeaderKey key <> "Rpc-Caller" ->
  http.CanonicalHeaderKey key <> "Rpc-Procedure" ->
  http.CanonicalHeaderKey key <> "Context-Ttl-Ms" ->
  http.Get (http.Header (newRequest t now ctx r)) key =
  http.Get (transport.passThrough (transport.Headers r)) key.
Proof.
  intros H1 H2 H3 H4. unfold transport.newRequest. cbn [http.Header].
  assert (Hne : forall h k v, http.CanonicalHeaderKey key <> http.CanonicalHeaderKey k ->
                              http.Get (http.Set_ h k v) key = http.Get h key).
  { intros h k v Hk. apply facts.Get_Set_ne. congruence. }
  destruct (transport.remaining noDeadline now ctx); [rewrite Hne by exact H4|];
    (rewrite Hne by exact H3;
     destruct (String.eqb (transport.SourceService (transport.opts t)) "");
     [|rewrite Hne by exact H2];
     rewrite Hne by exact H1; reflexivity).
Qed.

(** *** Properties *)

(** C8: a transport constructed with one endpoint, target service "target"
    and source service "source" is called with a deadline set three seconds
    ahead, at most 100 ms before the call builds its request. The outbound
    request goes to the endpoint with the request's payload; its
    procedure header is the request's method, its service and caller
    headers are "target" and "source", and its TTL header is a number of
    milliseconds between 2900 and 3000. On a 2xx reply the returned
    response is the peer's body and headers, unchanged. *)
Theorem C8_call_with_three_second_deadline
    (roundTrip : http.Request -> http.Exchange)
    (o : transport.HTTPOptions) (t : transport.Transport) (endpoint : string)
    (t0 now : Z) (r : transport.Request) :
  transport.HTTP o = Ok t ->
  transport.URLs o = [endpoint] ->
  transport.TargetService o = "target" ->
  transport.SourceService o = "source" ->
  t0 <= now <= t0 + 100 * time.Millisecond ->
  let ctx := context.WithTimeout t0 context.Background (3 * time.Second) in
  let sent := newRequest t now ctx r in
  http.URL sent = endpoint /\
  http.Body sent = transport.Body r /\
  http.Get (http.Header sent) "RPC-Procedure" = transport.Method r /\
  http.Get (http.Header sent) "RPC-Service" = "target" /\
  http.Get (http.Header sent) "RPC-Caller" = "source" /\
  (exists ms,
     http.Get (http.Header sent) "Context-TTL-MS" = strconv.Itoa ms /\
     strconv.Atoi (http.Get (http.Header sent) "Context-TTL-MS") = Some ms /\
     2900 <= ms <= 3000) /\
  (forall status header body,
     roundTrip sent = http.Replied status header (http.BodyOk body) ->
     200 <= status < 300 ->
     Call roundTrip t now ctx r = Ok (transport.mkResponse body header)).
Proof.
  intros Hok Hurls Htarget Hsource Hnow ctx sent.
  apply HTTP_Ok in Hok as (-> & _ & _).
  split; [|split; [reflexivity|split; [|split; [|split; [|split]]]]].
  - unfold sent, transport.newRequest. cbn [http.URL transport.opts].
    rewrite Hurls. cbn [length]. now rewrite Nat.mod_1_r.
  - apply sent_Procedure.
  - unfold sent. rewrite sent_Service. exact Htarget.
  - unfold sent. rewrite sent_Caller; cbn [transport.opts]; rewrite Hsource;
      [reflexivity | discriminate].
  - exists (Z.quot (t0 + 3 * time.Second - now) time.Millisecond).
    assert (Hms : 2900 <= Z.quot (t0 + 3 * time.Second - now) time.Millisecond <= 3000).
    { unfold time.Second, time.Millisecond in *.
      rewrite Z.quot_div_nonneg by lia. split.
      - apply Z.div_le_lower_bound; lia.
      - apply Z.div_le_upper_bound; lia. }
    assert (Hhdr : http.Get (http.Header sent) "Context-TTL-MS"
                   = strconv.Itoa (Z.quot (t0 + 3 * time.Second - now) time.Millisecond)).
    { unfold sent. rewrite sent_TTL. reflexivity. }
    split; [exact Hhdr|]. split; [|exact Hms].
    rewrite Hhdr. apply facts.Atoi_Itoa. unfold strconv.minInt, strconv.maxInt. lia.
  - intros status header body Hreply Hstatus. unfold transport.Call.
    fold sent. rewrite Hreply.
    destruct (Z.ltb_spec status 200); [lia|].
    destruct (Z.leb_spec 300 status); [lia|]. reflexivity.
Qed.

(** C9: when the peer closes the connection before any reply byte, the
    call fails with an error that mentions "EOF"; when it closes the
    connection after flushing part of the body, the call fails with the
    different error "unexpected EOF"; when it replies with status 400, the
    call fails with an error that contains "non-success response code:
    400". *)
Theorem C9_failure_classification
    (peer : http.Request -> http_test.handled)
    (t : transport.Transport) (now : Z) (ctx : context.Context)
    (r : transport.Request) :
  let sent := newRequest t now ctx r in
  let call := Call (fun q => http_test.serve q (peer q)) t now ctx r in
  (peer sent = http_test.Killed None ->
   exists e, call = Err e /\ gostrings.Within "EOF" e /\ e <> "unexpected EOF") /\
  (forall partial,
     peer sent = http_test.Killed (Some partial) -> call = Err "unexpected EOF") /\
  (forall header body,
     peer sent = http_test.Written 400 header body ->
     exists e, call = Err e /\ gostrings.Within "non-success response code: 400" e).
Proof.
  intros sent call. unfold call, transport.Call. fold sent.
  split; [|split].
  - intros ->. cbn [http_test.serve]. eexists. split; [reflexivity|]. split.
    + exists ("Post " +:+ http.URL sent +:+ ": "), "".
      unfold http_test.EOF. rewrite !facts.append_assoc. reflexivity.
    + discriminate.
  - intros partial ->. reflexivity.
  - intros header body ->. cbn [http_test.serve].
    exists "non-success response code: 400". split; [reflexivity|].
    now exists "", "".
Qed.

End Calls.

(** The handler answers a request without a [fail] header with [ok] and
    records it. *)
Lemma handler_plain (lastReq : http_test.lastRequest) (q : http.Request) :
  http.Get (http.Header q) "fail" = "" ->
  http_test.handler lastReq q =
  (http_test.Written 200 (http.Set_ ∅ "Custom-Header" "ok") (list_byte_of_string "ok"),
   http_test.mkLast (http.URL q) (http.Header q) (http.Body q)).
Proof. intros H. unfold http_test.handler. rewrite H. reflexivity. Qed.

(** Whole milliseconds of a [time.Duration] fit an [int], and turning them
    back into a [time.Duration] does not overflow. *)
Lemma whole_milliseconds (d : Z) :
  - 2 ^ 63 <= d < 2 ^ 63 ->
  strconv.minInt <= Z.quot d time.Millisecond <= strconv.maxInt /\
  time.mul (Z.quot d time.Millisecond) time.Millisecond
  = Z.quot d time.Millisecond * time.Millisecond.
Proof.
  intros Hd. unfold strconv.minInt, strconv.maxInt, time.mul, time.wrap64, time.Millisecond.
  assert (Hq : - 2 ^ 63 <= Z.quot d 1000000 * 1000000 < 2 ^ 63).
  { Z.quot_rem_to_equations. lia. }
  assert (Hx : - 2 ^ 63 <= Z.quot d 1000000 <= 2 ^ 63 - 1).
  { Z.quot_rem_to_equations. lia. }
  split; [exact Hx|]. rewrite Z.mod_small by lia. lia.
Qed.

Lemma passThrough_empty : transport.passThrough ∅ = ∅.
Proof. unfold transport.passThrough. apply map_fold_empty. Qed.

(** The first row of [TestHTTPCall] (no deadline, TTL required to be
    exactly one second) leaves no other choice: whatever a transport
    advertises without a deadline, if it passes that row, it sends the TTL
    header on every call without a deadline, and the header reads 1000. *)
Lemma first_row_requires_one_second
    (noDeadline : option Z) (svrURL : string) (t0 now0 : Z) (pick0 : nat)
    (lastReq : http_test.lastRequest) (tt : http_test.testCase)
    (tr : transport.Transport) :
  (forall d, noDeadline = Some d -> - 2 ^ 63 <= d < 2 ^ 63) ->
  http_test.tests t0 !! 0%nat = Some tt ->
  transport.HTTP (http_test.options svrURL) = Ok tr ->
  http_test.assertions svrURL tt
    (http_test.runCase noDeadline pick0 tr now0 lastReq tt) = true ->
  forall pick t now r,
    let sent := transport.newRequest noDeadline pick t now context.Background r in
    http.Get (http.Header sent) "Context-TTL-MS" = "1000" /\
    strconv.Atoi (http.Get (http.Header sent) "Context-TTL-MS") = Some 1000.
Proof.
  intros Hrange Hrow Htr Hpass.
  injection Hrow as <-.
  set (sent0 := transport.newRequest noDeadline pick0 tr now0 context.Background
                  (transport.mkRequest "method" http_test.body123 ∅)).
  assert (Hfail : http.Get (http.Header sent0) "fail" = "").
  { unfold sent0. rewrite sent_other by distinct_keys.
    cbn [transport.Headers]. rewrite passThrough_empty. reflexivity. }
  unfold http_test.assertions, http_test.runCase in Hpass.
  cbn [http_test.errMsg http_test.ctx http_test.r String.eqb negb] in Hpass.
  fold sent0 in Hpass. unfold transport.Call in Hpass. fold sent0 in Hpass.
  rewrite (handler_plain _ _ Hfail) in Hpass.
  cbn [fst snd http_test.serve Z.ltb Z.leb Z.compare Pos.compare Pos.compare_cont orb
       http_test.headers] in Hpass.
  repeat (apply andb_prop in Hpass as [Hpass ?]).
  match goal with
  | H : http_test.ttlInRange _ _ = true |- _ => rename H into Httl
  end.
  unfold sent0 in Httl. rewrite sent_TTL in Httl.
  unfold transport.remaining in Httl. cbn [context.Deadline context.Background] in Httl.
  assert (Hd : exists d, noDeadline = Some d /\ Z.quot d time.Millisecond = 1000).
  { destruct noDeadline as [d|].
    - exists d. split; [reflexivity|].
      destruct (whole_milliseconds d (Hrange d eq_refl)) as [Hint Hmul].
      unfold http_test.ttlInRange in Httl.
      rewrite (facts.Atoi_Itoa _ Hint), Hmul in Httl.
      cbn [http_test.ttlMin http_test.ttlMax] in Httl.
      apply andb_prop in Httl as [Hlo Hhi].
      apply Z.leb_le in Hlo, Hhi. unfold time.Second, time.Millisecond in *. lia.
    - cbn [transport.Headers] in Httl. rewrite passThrough_empty in Httl.
      discriminate Httl. }
  destruct Hd as (d & -> & Hq).
  intros pick t now r sent.
  assert (Hhdr : http.Get (http.Header sent) "Context-TTL-MS" = "1000").
  { unfold sent. rewrite sent_TTL. unfold transport.remaining.
    cbn [context.Deadline context.Background]. rewrite Hq. reflexivity. }
  split; [exact Hhdr|]. rewrite Hhdr. reflexivity.
Qed.


(** The default of the model is what the table requires of the row without
    a deadline. *)
Lemma defaultTimeout_from_table (t0 : Z) (row : http_test.testCase) :
  http_test.tests t0 !! 0%nat = Some row ->
  context.Deadline (http_test.ctx row) = None /\
  transport.defaultTimeout = Some (http_test.ttlMin row) /\
  http_test.ttlMin row = http_test.ttlMax row.
Proof. intros [= <-]. repeat split. Qed.

(** *** Calls against the test server *)

Definition svrURL : string := "http://127.0.0.1:8080".

Definition testTransport : transport.Transport :=
  transport.mkTransport (http_test.options svrURL).

(** The peer of the examples: the handler of the test server, on a server
    that has not served a request yet. *)
Definition testPeer (q : http.Request) : http_test.handled :=
  fst (http_test.handler http_test.noRequest q).

(** With a default of one second, the model passes every row of
    [TestHTTPCall], called 50 ms after [timeoutCtx] was made. *)
Example TestHTTPCall_passes :
  http_test.runTests (Some time.Second) 0 svrURL testTransport
    (50 * time.Millisecond) http_test.noRequest (http_test.tests 0) = true.
Proof. vm_compute. reflexivity. Qed.

(** A transport that omits the TTL header without a deadline, or that
    advertises another default, fails the first row. *)
Example TestHTTPCall_needs_one_second :
  http_test.runTests None 0 svrURL testTransport
    (50 * time.Millisecond) http_test.noRequest (http_test.tests 0) = false /\
  http_test.runTests (Some (30 * time.Second)) 0 svrURL testTransport
    (50 * time.Millisecond) http_test.noRequest (http_test.tests 0) = false.
Proof. split; vm_compute; reflexivity. Qed.

Lemma C8_witness :
  let ctx := context.WithTimeout 0 context.Background (3 * time.Second) in
  let r := transport.mkRequest "method" http_test.body123 ∅ in
  let roundTrip := fun q => http_test.serve q (testPeer q) in
  let sent := transport.newRequest (Some time.Second) 0 testTransport
                (50 * time.Millisecond) ctx r in
  http.URL sent = "http://127.0.0.1:8080/rpc" /\
  http.Body sent = http_test.body123 /\
  http.Get (http.Header sent) "RPC-Procedure" = "method" /\
  http.Get (http.Header sent) "RPC-Service" = "target" /\
  http.Get (http.Header sent) "RPC-Caller" = "source" /\
  (exists ms,
     http.Get (http.Header sent) "Context-TTL-MS" = strconv.Itoa ms /\
     strconv.Atoi (http.Get (http.Header sent) "Context-TTL-MS") = Some ms /\
     2900 <= ms <= 3000) /\
  (forall status header body,
     roundTrip sent = http.Replied status header (http.BodyOk body) ->
     200 <= status < 300 ->
     transport.Call (Some time.Second) 0 roundTrip testTransport
       (50 * time.Millisecond) ctx r = Ok (transport.mkResponse body header)).
Proof.
  apply (C8_call_with_three_second_deadline (Some time.Second) 0
           (fun q => http_test.serve q (testPeer q))
           (http_test.options svrURL) testTransport "http://127.0.0.1:8080/rpc"
           0 (50 * time.Millisecond)
           (transport.mkRequest "method" http_test.body123 ∅));
    [reflexivity | reflexivity | reflexivity | reflexivity
    | unfold time.Millisecond; lia].
Defined.

Lemma C9_witness :
  let call := fun mode =>
    transport.Call (Some time.Second) 0 (fun q => http_test.serve q (testPeer q))
      testTransport 0 context.Background
      (transport.mkRequest "method" http_test.body123 {["fail" := mode]}) in
  (exists e, call "kill_conn" = Err e /\ gostrings.Within "EOF" e /\ e <> "unexpected EOF") /\
  call "flush_and_kill" = Err "unexpected EOF" /\
  (exists e, call "bad_req" = Err e /\
             gostrings.Within "non-success response code: 400" e).
Proof.
  cbv zeta. split; [|split].
  - apply (C9_failure_classification (Some time.Second) 0 testPeer testTransport 0
             context.Background
             (transport.mkRequest "method" http_test.body123 {["fail" := "kill_conn"]})).
    vm_compute. reflexivity.
  - apply (proj1 (proj2 (C9_failure_classification (Some time.Second) 0 testPeer
                           testTransport 0 context.Background
                           (transport.mkRequest "method" http_test.body123
                              {["fail" := "flush_and_kill"]})))
             (list_byte_of_string "some data")).
    vm_compute. reflexivity.
  - apply (proj2 (proj2 (C9_failure_classification (Some time.Second) 0 testPeer
                           testTransport 0 context.Background
                           (transport.mkRequest "method" http_test.body123
                              {["fail" := "bad_req"]})))
             ∅ []).
    vm_compute. reflexivity.
Defined.

Lemma first_row_requires_one_second_example :
  let sent := transport.newRequest (Some time.Second) 0 testTransport 0
                context.Background
                (transport.mkRequest "method" http_test.body123 ∅) in
  http.Get (http.Header sent) "Context-TTL-MS" = "1000" /\
  strconv.Atoi (http.Get (http.Header sent) "Context-TTL-MS") = Some 1000.
Proof.
  apply (first_row_requires_one_second (Some time.Second) svrURL 0 0 0%nat
           http_test.noRequest
           (http_test.mkCase context.Background
              (transport.mkRequest "method" http_test.body123 ∅)
              "" time.Second time.Second)
           testTransport).
  - intros d [= <-]. unfold time.Second, time.Millisecond. lia.
  - reflexivity.
  - reflexivity.
  - vm_compute. reflexivity.
Defined.

End transport_spec.

(** ** More on the result resolver: what the loop stores, and how the two
    operations relate *)

Module resolver.

Section Loop.

Context {TS : compile.TypeSpecs} {Binary : protocol.Protocol} {Native : Type}.
Variable valueFromWire : compile.TypeSpec -> wire.Value -> Native + string.
Variable fmtValue : wire.Value -> string.
Variable fmtFields : list wire.Field -> string.

Abbreviation ResponseBytesToMap := (thrift.ResponseBytesToMap valueFromWire fmtValue).
Abbreviation CheckSuccess := (thrift.CheckSuccess fmtFields).
Abbreviation rangeFields := (thrift.rangeFields valueFromWire fmtValue).
Abbreviation resolveField := (thrift_spec.resolveField valueFromWire fmtValue).
Abbreviation decodesTo := thrift_spec.decodesTo.
Abbreviation exceptionsOf := thrift_spec.exceptionsOf.

(** [result[k] = v]: a later store under the same key replaces the value. *)
Definition store (m : gmap string Native) (kv : string * Native) : gmap string Native :=
  <[kv.1 := kv.2]> m.

(** The field is accepted by the loop of [ResponseBytesToMap]. *)
Definition accepted (spec : compile.FunctionSpec) (f : wire.Field) : Prop :=
  exists kv, resolveField spec f = Ok kv.

(** *** Lemmas *)

Lemma rangeFields_Ok (spec : compile.FunctionSpec) (fs : list wire.Field)
    (res m : gmap string Native) :
  rangeFields spec (thrift.getFieldMap (exceptionsOf spec)) fs res = Ok m <->
  exists entries,
    Forall2 (fun f kv => resolveField spec f = Ok kv) fs entries /\
    m = foldl store res entries.
Proof.
  revert res. induction fs as [|f fs IH]; intros res.
  - cbn [thrift.rangeFields]. split.
    + intros [= <-]. exists []. split; [constructor | reflexivity].
    + intros (entries & HF & ->). apply Forall2_nil_inv_l in HF as ->. reflexivity.
  - rewrite thrift_spec.rangeFields_cons.
    destruct (thrift_spec.resolveField valueFromWire fmtValue spec f)
      as [[k v]|e|p] eqn:E.
    + rewrite IH. split.
      * intros (entries & HF & ->). exists ((k, v) :: entries).
        split; [constructor; assumption | reflexivity].
      * intros (entries & HF & ->).
        apply Forall2_cons_inv_l in HF as (kv & entries' & Hkv & HF & ->).
        rewrite E in Hkv. injection Hkv as <-. exists entries'. split; [exact HF | reflexivity].
    + split; [discriminate|]. intros (entries & HF & _).
      apply Forall2_cons_inv_l in HF as (kv & entries' & Hkv & _). congruence.
    + split; [discriminate|]. intros (entries & HF & _).
      apply Forall2_cons_inv_l in HF as (kv & entries' & Hkv & _). congruence.
Qed.

Lemma rangeFields_rejected (spec : compile.FunctionSpec)
    (pre : list wire.Field) (f : wire.Field) (post : list wire.Field)
    (res : gmap string Native) (e : string) :
  Forall (accepted spec) pre ->
  resolveField spec f = Err e ->
  rangeFields spec (thrift.getFieldMap (exceptionsOf spec)) (pre ++ f :: post) res = Err e.
Proof.
  intros Hpre Hf. revert res. induction Hpre as [|g pre [[k v] Hg] _ IH]; intros res.
  - cbn [app]. now rewrite thrift_spec.rangeFields_cons, Hf.
  - cbn [app]. rewrite thrift_spec.rangeFields_cons, Hg. apply IH.
Qed.

(** What an accepted field stores: the decoded value, under ["result"] for
    id 0 of a method with a return type, under the name of a declared
    exception with the field's id otherwise. *)
Lemma resolveField_Ok (spec : compile.FunctionSpec) (f : wire.Field)
    (k : string) (d : Native) :
  resolveField spec f = Ok (k, d) ->
  (wire.ID f = 0 /\ k = "result" /\
   exists rt, thrift.returnTypeOf spec = Some rt /\
              valueFromWire rt (wire.FieldValue f) = inl d) \/
  (wire.ID f <> 0 /\
   exists ex, ex ∈ exceptionsOf spec /\ compile.ID ex = wire.ID f /\
              k = compile.Name ex /\
              valueFromWire (compile.FieldType ex) (wire.FieldValue f) = inl d).
Proof.
  unfold thrift_spec.resolveField.
  destruct (Z.eqb_spec (wire.ID f) 0) as [H0|H0].
  - destruct (thrift.returnTypeOf spec) as [rt|]; [|discriminate].
    destruct (valueFromWire rt (wire.FieldValue f)) as [v|e] eqn:Ev; [|discriminate].
    intros [= <- <-]. left. eauto.
  - destruct (thrift.getFieldMap (exceptionsOf spec) !! wire.ID f) as [ex|] eqn:E;
      [|discriminate].
    apply thrift_spec.getFieldMap_Some in E as [Hin Hid].
    destruct (valueFromWire (compile.FieldType ex) (wire.FieldValue f)) as [v|e] eqn:Ev;
      [|discriminate].
    intros [= <- <-]. right. split; [exact H0|]. exists ex. auto.
Qed.

Lemma foldl_store_lookup (entries : list (string * Native))
    (res : gmap string Native) (k : string) (d : Native) :
  foldl store res entries !! k = Some d -> (k, d) ∈ entries \/ res !! k = Some d.
Proof.
  revert res. induction entries as [|[k' d'] entries IH]; intros res H; cbn [foldl] in H.
  - now right.
  - destruct (IH _ H) as [Hin|Hres].
    + left. now apply list_elem_of_further.
    + unfold store in Hres. cbn [fst snd] in Hres.
      destruct (decide (k' = k)) as [->|Hne].
      * rewrite lookup_insert_eq in Hres. injection Hres as ->.
        left. apply list_elem_of_here.
      * rewrite lookup_insert_ne in Hres by exact Hne. now right.
Qed.

Lemma foldl_store_size (entries : list (string * Native)) (res : gmap string Native) :
  (size (foldl store res entries) <= size res + length entries)%nat.
Proof.
  revert res. induction entries as [|kv entries IH]; intros res; cbn [foldl length].
  - lia.
  - specialize (IH (store res kv)).
    assert (Hs : (size (store res kv) <= S (size res))%nat).
    { unfold store. rewrite map_size_insert. destruct (res !! kv.1); cbn; lia. }
    lia.
Qed.

Lemma entries_fields (spec : compile.FunctionSpec) (fs : list wire.Field)
    (entries : list (string * Native)) (kv : string * Native) :
  Forall2 (fun f kv => resolveField spec f = Ok kv) fs entries ->
  kv ∈ entries -> exists f, f ∈ fs /\ resolveField spec f = Ok kv.
Proof.
  induction 1 as [|f kv' fs entries Hf _ IH]; intros Hin.
  - now apply elem_of_nil in Hin.
  - apply elem_of_cons in Hin as [->|Hin].
    + exists f. split; [apply list_elem_of_here | exact Hf].
    + destruct (IH Hin) as (g & Hg & Hr). exists g.
      split; [now apply list_elem_of_further | exact Hr].
Qed.

(** *** Properties *)

(** X1: on a decodable envelope, [ResponseBytesToMap] returns a map exactly
    when the loop accepts every field, and the map is then the stores of
    the fields' entries in wire order, starting from the empty map. *)
Theorem ResponseBytesToMap_stores_in_order (spec : compile.FunctionSpec)
    (bytes : list Byte.byte) (fs : list wire.Field) (m : gmap string Native) :
  decodesTo bytes fs ->
  (ResponseBytesToMap spec bytes = Ok m <->
   exists entries,
     Forall2 (fun f kv => resolveField spec f = Ok kv) fs entries /\
     m = foldl store ∅ entries).
Proof.
  intros Hdec. rewrite (thrift_spec.ResponseBytesToMap_decoded _ _ _ _ _ Hdec).
  apply rangeFields_Ok.
Qed.

(** X2: the error of [ResponseBytesToMap] is the error of the first field
    the loop rejects; the fields after it are not looked at. *)
Theorem ResponseBytesToMap_first_rejected (spec : compile.FunctionSpec)
    (bytes : list Byte.byte) (pre : list wire.Field) (f : wire.Field)
    (post : list wire.Field) (e : string) :
  decodesTo bytes (pre ++ f :: post) ->
  Forall (accepted spec) pre ->
  resolveField spec f = Err e ->
  ResponseBytesToMap spec bytes = Err e.
Proof.
  intros Hdec Hpre Hf. rewrite (thrift_spec.ResponseBytesToMap_decoded _ _ _ _ _ Hdec).
  now apply rangeFields_rejected.
Qed.

(** X3: every entry of a returned map is the decoded value of a field of
    the envelope: under ["result"] for a field with id 0 (and then the
    method has a return type), under the name of a declared exception with
    the field's id for a field with a nonzero id. *)
Theorem ResponseBytesToMap_entry_origin (spec : compile.FunctionSpec)
    (bytes : list Byte.byte) (fs : list wire.Field) (m : gmap string Native)
    (k : string) (d : Native) :
  decodesTo bytes fs ->
  ResponseBytesToMap spec bytes = Ok m ->
  m !! k = Some d ->
  exists f, f ∈ fs /\
    ((wire.ID f = 0 /\ k = "result" /\
      exists rt, thrift.returnTypeOf spec = Some rt /\
                 valueFromWire rt (wire.FieldValue f) = inl d) \/
     (wire.ID f <> 0 /\
      exists ex, ex ∈ exceptionsOf spec /\ compile.ID ex = wire.ID f /\
                 k = compile.Name ex /\
                 valueFromWire (compile.FieldType ex) (wire.FieldValue f) = inl d)).
Proof.
  intros Hdec Hok Hk.
  rewrite (thrift_spec.ResponseBytesToMap_decoded _ _ _ _ _ Hdec) in Hok.
  apply rangeFields_Ok in Hok as (entries & HF & ->).
  apply foldl_store_lookup in Hk as [Hin|Hempty].
  - destruct (entries_fields _ _ _ _ HF Hin) as (f & Hf & Hr).
    exists f. split; [exact Hf|]. now apply resolveField_Ok.
  - rewrite lookup_empty in Hempty. discriminate.
Qed.

(** X4: a returned map has at most as many entries as the envelope has
    fields. *)
Theorem ResponseBytesToMap_size (spec : compile.FunctionSpec)
    (bytes : list Byte.byte) (fs : list wire.Field) (m : gmap string Native) :
  decodesTo bytes fs ->
  ResponseBytesToMap spec bytes = Ok m ->
  (size m <= length fs)%nat.
Proof.
  intros Hdec Hok.
  rewrite (thrift_spec.ResponseBytesToMap_decoded _ _ _ _ _ Hdec) in Hok.
  apply rangeFields_Ok in Hok as (entries & HF & ->).
  pose proof (foldl_store_size entries ∅) as Hs. rewrite map_size_empty in Hs.
  rewrite (Forall2_length _ _ _ HF). exact Hs.
Qed.

(** X5: the last field of the envelope always has its entry in a returned
    map: when a key is stored more than once, the later field wins. *)
Theorem ResponseBytesToMap_last_field_wins (spec : compile.FunctionSpec)
    (bytes : list Byte.byte) (fs : list wire.Field) (f : wire.Field)
    (m : gmap string Native) :
  decodesTo bytes (fs ++ [f]) ->
  ResponseBytesToMap spec bytes = Ok m ->
  exists k d, resolveField spec f = Ok (k, d) /\ m !! k = Some d.
Proof.
  intros Hdec Hok.
  rewrite (thrift_spec.ResponseBytesToMap_decoded _ _ _ _ _ Hdec) in Hok.
  apply rangeFields_Ok in Hok as (entries & HF & ->).
  apply Forall2_app_inv_l in HF as (es & last & _ & Hlast & ->).
  apply Forall2_cons_inv_l in Hlast as ([k d] & tl & Hf & Hnil & ->).
  apply Forall2_nil_inv_l in Hnil as ->.
  exists k, d. split; [exact Hf|].
  rewrite foldl_app. cbn [foldl]. unfold store at 1. cbn [fst snd].
  apply lookup_insert_eq.
Qed.

(** X6: on the empty envelope [ResponseBytesToMap] returns the empty map
    whatever the method is, while [CheckSuccess] returns nil for a void
    method only: for a method with a return type it reports the field
    count. *)
Theorem empty_envelope (spec : compile.FunctionSpec) (bytes : list Byte.byte) :
  decodesTo bytes [] ->
  ResponseBytesToMap spec bytes = Ok ∅ /\
  (thrift.returnTypeOf spec = None -> CheckSuccess spec bytes = Ok tt) /\
  (forall rt, thrift.returnTypeOf spec = Some rt ->
     CheckSuccess spec bytes =
       Err ("method with return did not get 1 field in result: " +:+ fmtFields [])).
Proof.
  intros Hdec. split; [|split].
  - now rewrite (thrift_spec.ResponseBytesToMap_decoded _ _ _ _ _ Hdec).
  - intros Hv. unfold thrift.CheckSuccess.
    now rewrite (thrift_spec.responseBytesToWire_decoded _ _ Hdec), Hv.
  - intros rt Hrt. unfold thrift.CheckSuccess.
    now rewrite (thrift_spec.responseBytesToWire_decoded _ _ Hdec), Hrt.
Qed.

(** X7: [CheckSuccess] returns nil exactly when the codec returns a struct
    which, for a void method, has no field and, for a method with a return
    type, has exactly one field, with id 0. *)
Theorem CheckSuccess_nil_iff (spec : compile.FunctionSpec) (bytes : list Byte.byte) :
  CheckSuccess spec bytes = Ok tt <->
  exists fs,
    decodesTo bytes fs /\
    match thrift.returnTypeOf spec with
    | None => fs = []
    | Some _ => exists v, fs = [wire.mkField 0 v]
    end.
Proof.
  split.
  - unfold thrift.CheckSuccess, thrift.responseBytesToWire, thrift_spec.decodesTo.
    destruct (protocol.Decode bytes wire.TStruct) as [w|e]; [|discriminate].
    destruct w; cbn [wire.TypeOf wire.TypeCode_eqb negb]; try discriminate.
    cbn [wire.GetStruct wire.Fields]. intros H. exists fields. split; [reflexivity|].
    destruct (thrift.returnTypeOf spec).
    + destruct fields as [|[id v] [|f1 rest]]; cbn in H; try discriminate.
      destruct (Z.eqb_spec id 0) as [->|]; [|discriminate]. now exists v.
    + destruct fields as [|f0 rest]; [reflexivity|]. cbn in H.
      destruct (wire.ID f0 =? 0); discriminate.
  - intros (fs & Hdec & Hshape). unfold thrift.CheckSuccess.
    rewrite (thrift_spec.responseBytesToWire_decoded _ _ Hdec).
    destruct (thrift.returnTypeOf spec).
    + destruct Hshape as [v ->]. reflexivity.
    + subst fs. reflexivity.
Qed.

(** X8: [CheckSuccess] does not decode values. When it returns nil,
    [ResponseBytesToMap] returns the empty map (void method), or the single
    entry ["result"], or, when the value does not decode as the return
    type, the error "failed to parse result field 0: ..."; it never returns
    an exception's entry. *)
Theorem CheckSuccess_nil_then_map (spec : compile.FunctionSpec) (bytes : list Byte.byte) :
  CheckSuccess spec bytes = Ok tt ->
  (thrift.returnTypeOf spec = None /\ ResponseBytesToMap spec bytes = Ok ∅) \/
  (exists rt v,
     thrift.returnTypeOf spec = Some rt /\ decodesTo bytes [wire.mkField 0 v] /\
     ResponseBytesToMap spec bytes =
       match valueFromWire rt v with
       | inl d => Ok {["result" := d]}
       | inr e => Err ("failed to parse result field 0: " +:+ e)
       end).
Proof.
  intros H. apply CheckSuccess_nil_iff in H as (fs & Hdec & Hshape).
  destruct (thrift.returnTypeOf spec) as [rt|] eqn:Hrt.
  - right. destruct Hshape as [v ->]. exists rt, v. repeat split; [exact Hdec|].
    rewrite (thrift_spec.ResponseBytesToMap_decoded _ _ _ _ _ Hdec),
      thrift_spec.rangeFields_cons.
    unfold thrift_spec.resolveField. cbn [wire.ID wire.FieldValue Z.eqb]. rewrite Hrt.
    destruct (valueFromWire rt v); [|reflexivity].
    cbn [thrift.rangeFields]. now rewrite insert_empty.
  - left. subst fs. split; [reflexivity|].
    now rewrite (thrift_spec.ResponseBytesToMap_decoded _ _ _ _ _ Hdec).
Qed.


(** With ids that are unique within the declared exceptions, an id names
    its exception. *)
Lemma unique_id (exs : list compile.FieldSpec) (x y : compile.FieldSpec) :
  NoDup (compile.ID <$> exs) -> x ∈ exs -> y ∈ exs ->
  compile.ID x = compile.ID y -> x = y.
Proof.
  induction exs as [|e exs IH]; intros Hnd Hx Hy Hid.
  - now apply elem_of_nil in Hx.
  - rewrite fmap_cons in Hnd. apply NoDup_cons in Hnd as [Hnotin Hnd].
    apply elem_of_cons in Hx as [->|Hx]; apply elem_of_cons in Hy as [->|Hy].
    + reflexivity.
    + destruct Hnotin. rewrite Hid. now apply list_elem_of_fmap_2.
    + destruct Hnotin. rewrite <- Hid. now apply list_elem_of_fmap_2.
    + now apply IH.
Qed.

Lemma getFieldMap_fold_is_Some (exs : list compile.FieldSpec)
    (m : gmap Z compile.FieldSpec) (id : Z) :
  (exists ex, ex ∈ exs /\ compile.ID ex = id) \/ is_Some (m !! id) ->
  is_Some (foldl (fun m f => <[compile.ID f := f]> m) m exs !! id).
Proof.
  revert m. induction exs as [|e exs IH]; intros m H; cbn [foldl].
  - destruct H as [(ex & Hin & _)|H]; [now apply elem_of_nil in Hin | exact H].
  - apply IH. destruct H as [(ex & Hin & Hid)|H].
    + apply elem_of_cons in Hin as [->|Hin]; [|left; eauto].
      right. rewrite Hid, lookup_insert_eq. eauto.
    + right. destruct (decide (compile.ID e = id)) as [->|Hne].
      * rewrite lookup_insert_eq. eauto.
      * now rewrite lookup_insert_ne.
Qed.

Lemma getFieldMap_unique (exs : list compile.FieldSpec) (ex : compile.FieldSpec) :
  NoDup (compile.ID <$> exs) -> ex ∈ exs ->
  thrift.getFieldMap exs !! compile.ID ex = Some ex.
Proof.
  intros Hnd Hin.
  destruct (getFieldMap_fold_is_Some exs ∅ (compile.ID ex)) as [ex' Hex'].
  { left. eauto. }
  unfold thrift.getFieldMap. rewrite Hex'.
  apply thrift_spec.getFieldMap_Some in Hex' as [Hin' Hid]. f_equal.
  now apply (unique_id exs).
Qed.

Lemma rangeExceptions_unique (exs : list compile.FieldSpec) (ex : compile.FieldSpec) :
  NoDup (compile.ID <$> exs) -> ex ∈ exs ->
  thrift.rangeExceptions exs (compile.ID ex)
  = compile.Name ex +:+ " " +:+ compile.ThriftName (compile.FieldType ex).
Proof.
  intros Hnd Hin. induction exs as [|e exs IH]; [now apply elem_of_nil in Hin|].
  cbn [thrift.rangeExceptions].
  destruct (Z.eqb_spec (compile.ID e) (compile.ID ex)) as [Heq|Hne].
  - assert (e = ex) as ->; [|reflexivity].
    apply (unique_id (e :: exs)); [exact Hnd | apply list_elem_of_here | exact Hin | exact Heq].
  - apply elem_of_cons in Hin as [->|Hin]; [contradiction|].
    rewrite fmap_cons in Hnd. apply NoDup_cons in Hnd as [_ Hnd]. now apply IH.
Qed.

(** X10: when the ids of the declared exceptions are unique and the
    envelope is the single field of a declared exception, [CheckSuccess]
    reports the exception by its declared name and type name, and
    [ResponseBytesToMap] returns the single entry under that name, or
    "failed to parse result field <id>: ..." when the value does not decode
    as the exception's type. *)
Theorem declared_exception_envelope (spec : compile.FunctionSpec)
    (bytes : list Byte.byte) (ex : compile.FieldSpec) (v : wire.Value) :
  NoDup (compile.ID <$> exceptionsOf spec) ->
  ex ∈ exceptionsOf spec ->
  compile.ID ex <> 0 ->
  decodesTo bytes [wire.mkField (compile.ID ex) v] ->
  CheckSuccess spec bytes =
    Err (thrift_spec.exceptionPrefix spec +:+ compile.Name ex +:+ " "
         +:+ compile.ThriftName (compile.FieldType ex)) /\
  ResponseBytesToMap spec bytes =
    match valueFromWire (compile.FieldType ex) v with
    | inl d => Ok {[compile.Name ex := d]}
    | inr e =>
      Err ("failed to parse result field " +:+ strconv.Itoa (compile.ID ex) +:+ ": " +:+ e)
    end.
Proof.
  intros Hnd Hin Hnz Hdec.
  assert (Hz : (compile.ID ex =? 0) = false) by now apply Z.eqb_neq.
  split.
  - assert (Hce : thrift.checkException spec (compile.ID ex)
                  = compile.Name ex +:+ " " +:+ compile.ThriftName (compile.FieldType ex)).
    { unfold thrift.checkException, thrift_spec.exceptionsOf in *.
      destruct (compile.ResultSpec spec) as [rs|]; [|now apply elem_of_nil in Hin].
      destruct (compile.Exceptions rs) as [|e exs] eqn:E; [now apply elem_of_nil in Hin|].
      cbn [length Nat.eqb]. now apply rangeExceptions_unique. }
    unfold thrift.CheckSuccess, thrift_spec.exceptionPrefix.
    rewrite (thrift_spec.responseBytesToWire_decoded _ _ Hdec).
    cbn [wire.Fields length Nat.eqb negb thrift.firstField lookup list_lookup wire.ID].
    rewrite Hz, Hce. now destruct (thrift.returnTypeOf spec).
  - rewrite (thrift_spec.ResponseBytesToMap_decoded _ _ _ _ _ Hdec),
      thrift_spec.rangeFields_cons.
    unfold thrift_spec.resolveField. cbn [wire.ID wire.FieldValue].
    rewrite Hz, (getFieldMap_unique _ _ Hnd Hin).
    destruct (valueFromWire (compile.FieldType ex) v); [|reflexivity].
    cbn [thrift.rangeFields]. now rewrite insert_empty.
Qed.

End Loop.

(** *** Concrete envelopes *)

Abbreviation sampleMap := thrift_spec.sampleMap.
Abbreviation sampleCheck := thrift_spec.sampleCheck.
Abbreviation sampleDecodes := thrift_spec.sampleDecodes.
Abbreviation sampleResolve :=
  (thrift_spec.resolveField (TS:=sample.TS) sample.valueFromWire sample.fmtValue).

(** [{0: true, 8: true}]. *)
Definition resultAnd8 : list Byte.byte :=
  [Byte.x02; Byte.x00; Byte.x00; Byte.x01;
   Byte.x02; Byte.x00; Byte.x08; Byte.x01; Byte.x00].

(** [{0: true, 0: false}]. *)
Definition twoResults : list Byte.byte :=
  [Byte.x02; Byte.x00; Byte.x00; Byte.x01;
   Byte.x02; Byte.x00; Byte.x00; Byte.x00; Byte.x00].


Lemma ResponseBytesToMap_stores_in_order_witness :
  sampleMap sample.checkBool sample.resultAnd7 =
    Ok (foldl store ∅
          [("result", sample.NBool true);
           ("notFound", sample.NStruct [(1, wire.VI32 42)])]).
Proof.
  apply (proj2 (ResponseBytesToMap_stores_in_order (TS:=sample.TS)
                  (Binary:=binary.Binary) sample.valueFromWire sample.fmtValue
                  sample.checkBool sample.resultAnd7 _ _ eq_refl)).
  exists [("result", sample.NBool true);
          ("notFound", sample.NStruct [(1, wire.VI32 42)])].
  split; [|reflexivity].
  constructor; [reflexivity|]. constructor; [reflexivity|]. constructor.
Defined.

Lemma ResponseBytesToMap_first_rejected_witness :
  sampleMap sample.checkBool resultAnd8 =
    Err "got unknown exception with ID 8: TBool(true)".
Proof.
  apply (ResponseBytesToMap_first_rejected (TS:=sample.TS) (Binary:=binary.Binary)
           sample.valueFromWire sample.fmtValue sample.checkBool resultAnd8
           [wire.mkField 0 (wire.VBool true)] (wire.mkField 8 (wire.VBool true)) []).
  - reflexivity.
  - constructor; [|constructor]. exists ("result", sample.NBool true). reflexivity.
  - reflexivity.
Defined.

Lemma sample_okString_map :
  sampleMap sample.getString sample.okString = Ok {["result" := sample.NString "ok"]}.
Proof. vm_compute. reflexivity. Qed.

Lemma ResponseBytesToMap_entry_origin_witness :
  exists f, f ∈ [wire.mkField 0 (wire.VBinary [Byte.x6f; Byte.x6b])] /\
    ((wire.ID f = 0 /\ "result" = "result" /\
      exists rt, thrift.returnTypeOf sample.getString = Some rt /\
                 sample.valueFromWire rt (wire.FieldValue f) = inl (sample.NString "ok")) \/
     (wire.ID f <> 0 /\
      exists ex, ex ∈ thrift_spec.exceptionsOf sample.getString /\
                 compile.ID ex = wire.ID f /\ "result" = compile.Name ex /\
                 sample.valueFromWire (compile.FieldType ex) (wire.FieldValue f)
                 = inl (sample.NString "ok"))).
Proof.
  apply (ResponseBytesToMap_entry_origin (TS:=sample.TS) (Binary:=binary.Binary)
           sample.valueFromWire sample.fmtValue sample.getString sample.okString
           [wire.mkField 0 (wire.VBinary [Byte.x6f; Byte.x6b])]
           {["result" := sample.NString "ok"]} "result" (sample.NString "ok")
           eq_refl sample_okString_map).
  apply lookup_singleton_eq.
Defined.

Lemma ResponseBytesToMap_size_witness :
  (size ({["result" := sample.NString "ok"]} : gmap string sample.Native) <= 1)%nat.
Proof.
  apply (ResponseBytesToMap_size (TS:=sample.TS) (Binary:=binary.Binary)
           sample.valueFromWire sample.fmtValue sample.getString sample.okString
           [wire.mkField 0 (wire.VBinary [Byte.x6f; Byte.x6b])]
           {["result" := sample.NString "ok"]} eq_refl sample_okString_map).
Defined.

Lemma sample_twoResults_map :
  sampleMap sample.checkBool twoResults = Ok {["result" := sample.NBool false]}.
Proof. vm_compute. reflexivity. Qed.

Lemma ResponseBytesToMap_last_field_wins_witness :
  exists k d,
    sampleResolve sample.checkBool (wire.mkField 0 (wire.VBool false)) = Ok (k, d) /\
    ({["result" := sample.NBool false]} : gmap string sample.Native) !! k = Some d.
Proof.
  apply (ResponseBytesToMap_last_field_wins (TS:=sample.TS) (Binary:=binary.Binary)
           sample.valueFromWire sample.fmtValue sample.checkBool twoResults
           [wire.mkField 0 (wire.VBool true)] (wire.mkField 0 (wire.VBool false))
           {["result" := sample.NBool false]} eq_refl sample_twoResults_map).
Defined.

Lemma empty_envelope_witness :
  sampleMap sample.getString sample.empty = Ok ∅ /\
  sampleCheck sample.ping sample.empty = Ok tt /\
  sampleCheck sample.getString sample.empty =
    Err "method with return did not get 1 field in result: []".
Proof.
  destruct (empty_envelope (TS:=sample.TS) (Binary:=binary.Binary)
              sample.valueFromWire sample.fmtValue sample.fmtFields
              sample.getString sample.empty eq_refl) as (A1 & _ & A3).
  destruct (empty_envelope (TS:=sample.TS) (Binary:=binary.Binary)
              sample.valueFromWire sample.fmtValue sample.fmtFields
              sample.ping sample.empty eq_refl) as (_ & B2 & _).
  split; [exact A1|]. split; [exact (B2 eq_refl)|].
  rewrite (A3 sample.StringSpec eq_refl). reflexivity.
Defined.

Lemma CheckSuccess_nil_iff_witness :
  sampleCheck sample.getString sample.okString = Ok tt /\
  exists fs, sampleDecodes sample.exception7 fs /\ fs <> [] /\
             sampleCheck sample.remove sample.exception7 <> Ok tt.
Proof.
  split.
  - apply (proj2 (CheckSuccess_nil_iff (TS:=sample.TS) (Binary:=binary.Binary)
                    sample.fmtFields sample.getString sample.okString)).
    exists [wire.mkField 0 (wire.VBinary [Byte.x6f; Byte.x6b])].
    split; [reflexivity|]. cbn. eauto.
  - exists [wire.mkField 7 (wire.VStruct [wire.mkField 1 (wire.VI32 42)])].
    split; [reflexivity|]. split; [discriminate|]. intros H.
    apply (proj1 (CheckSuccess_nil_iff (TS:=sample.TS) (Binary:=binary.Binary)
                    sample.fmtFields sample.remove sample.exception7)) in H
      as (fs & Hdec & Hshape).
    cbn in Hshape. subst fs. vm_compute in Hdec. discriminate.
Defined.

Lemma CheckSuccess_nil_then_map_witness :
  sampleCheck sample.checkBool sample.okString = Ok tt /\
  sampleMap sample.checkBool sample.okString =
    Err "failed to parse result field 0: wire type does not match the spec".
Proof.
  split; [reflexivity|].
  destruct (CheckSuccess_nil_then_map (TS:=sample.TS) (Binary:=binary.Binary)
              sample.valueFromWire sample.fmtValue sample.fmtFields
              sample.checkBool sample.okString eq_refl)
    as [[Hv _] | (rt & v & Hrt & Hdec & Hmap)].
  - discriminate Hv.
  - injection Hrt as <-. vm_compute in Hdec. injection Hdec as <-.
    rewrite Hmap. reflexivity.
Defined.


Lemma declared_exception_envelope_witness :
  sampleCheck sample.getString sample.exception7 =
    Err "method with return got exception: notFound NotFound" /\
  sampleMap sample.getString sample.exception7 =
    Ok {["notFound" := sample.NStruct [(1, wire.VI32 42)]]}.
Proof.
  destruct (declared_exception_envelope (TS:=sample.TS) (Binary:=binary.Binary)
              sample.valueFromWire sample.fmtValue sample.fmtFields
              sample.getString sample.exception7 sample.ex7
              (wire.VStruct [wire.mkField 1 (wire.VI32 42)]))
    as (A1 & A2).
  - cbn. apply NoDup_singleton.
  - cbn. apply list_elem_of_here.
  - discriminate.
  - reflexivity.
  - split; [rewrite A1 | rewrite A2]; reflexivity.
Defined.

End resolver.

(** ** More on the assertions of [TestHTTPCall] *)

Module harness.

(** [int64] wrap-around leaves a value in range alone, so a wrapped value
    equals an in-range value exactly when the two differ by a multiple of
    [2 ^ 64]. *)
Lemma wrap64_eq (z v : Z) :
  - 2 ^ 63 <= v < 2 ^ 63 ->
  time.wrap64 z = v <-> (2 ^ 64 | z - v).
Proof.
  intros Hv. unfold time.wrap64. split.
  - intros H. exists ((z + 2 ^ 63) / 2 ^ 64).
    pose proof (Z.div_mod (z + 2 ^ 63) (2 ^ 64) ltac:(lia)). lia.
  - intros [q Hq].
    replace (z + 2 ^ 63) with (v + 2 ^ 63 + q * 2 ^ 64) by lia.
    rewrite Z_mod_plus_full, Z.mod_small by lia. lia.
Qed.

(** X11: on a row that requires a TTL of exactly one second, the TTL
    assertion accepts a header exactly when [strconv.Atoi] reads an [int]
    from it that equals 1000 modulo [2 ^ 58]: the product with
    [time.Millisecond] wraps around in [int64], so 1000 is not the only
    value that passes. *)
Theorem ttl_assertion_one_second (row : http_test.testCase) (hdr : string) :
  http_test.ttlMin row = time.Second ->
  http_test.ttlMax row = time.Second ->
  (http_test.ttlInRange row hdr = true <->
   exists ttlMS, strconv.Atoi hdr = Some ttlMS /\ (2 ^ 58 | ttlMS - 1000)).
Proof.
  intros Hmin Hmax. unfold http_test.ttlInRange. rewrite Hmin, Hmax.
  assert (Hstep : forall n,
            (time.Second <=? time.mul n time.Millisecond)
            && (time.mul n time.Millisecond <=? time.Second) = true
            <-> (2 ^ 58 | n - 1000)).
  { intros n. rewrite andb_true_iff, !Z.leb_le.
    transitivity (time.wrap64 (n * time.Millisecond) = time.Second).
    { unfold time.mul. lia. }
    rewrite wrap64_eq by (unfold time.Second, time.Millisecond; lia).
    unfold time.Second, time.Millisecond.
    replace (n * 1000000 - 1000 * 1000000) with ((n - 1000) * 15625 * 2 ^ 6) by lia.
    change (2 ^ 64) with (2 ^ 58 * 2 ^ 6).
    rewrite Z.mul_divide_cancel_r by lia. split.
    - intros H. rewrite Z.mul_comm in H. apply Z.gauss in H; [exact H|].
      vm_compute. reflexivity.
    - intros H. now apply Z.divide_mul_l. }
  destruct (strconv.Atoi hdr) as [n|].
  - rewrite Hstep. split.
    + intros H. exists n. split; [reflexivity | exact H].
    + intros (n' & [= <-] & H). exact H.
  - split; [discriminate | intros (n' & H & _); discriminate].
Qed.

Lemma ttl_assertion_one_second_witness :
  http_test.ttlInRange
    (http_test.mkCase context.Background
       (transport.mkRequest "method" http_test.body123 ∅) "" time.Second time.Second)
    "288230376151712744" = true /\
  http_test.ttlInRange
    (http_test.mkCase context.Background
       (transport.mkRequest "method" http_test.body123 ∅) "" time.Second time.Second)
    "1000" = true.
Proof.
  split.
  - apply (proj2 (ttl_assertion_one_second
                    (http_test.mkCase context.Background
                       (transport.mkRequest "method" http_test.body123 ∅)
                       "" time.Second time.Second)
                    "288230376151712744" eq_refl eq_refl)).
    exists 288230376151712744. split; [vm_compute; reflexivity|]. now exists 1.
  - apply (proj2 (ttl_assertion_one_second
                    (http_test.mkCase context.Background
                       (transport.mkRequest "method" http_test.body123 ∅)
                       "" time.Second time.Second)
                    "1000" eq_refl eq_refl)).
    exists 1000. split; [vm_compute; reflexivity|]. now exists 0.
Defined.

End harness.
